(** * router7, package dhcp6: the DHCPv6 client

    A shallow embedding of [internal/dhcp6/dhcp6.go].  The client keeps its
    session in a [Client] struct and talks to the network through a
    [net.PacketConn]; messages are built and parsed by the library
    [github.com/insomniacslk/dhcp/dhcpv6], which is not part of the
    package: its parser, serialiser and constructors are the members of the
    class [Codec] below, its plain data types and option accessors are
    written out in the module [dhcpv6]. *)

From Stdlib Require Import List ZArith NArith Bool String Lia.
From Stdlib Require Import Strings.Byte DecimalString.
Import ListNotations.

Set Implicit Arguments.
Local Open Scope Z_scope.

(** ** Errors

    Go's [error] values.  The package creates a single error of its own (the
    nil check of [sendReceive]); the others come from the connection and from
    the library and are handed through unchanged. *)
Inductive error : Type :=
| ErrNilPacket                 (* fmt.Errorf("packet to send cannot be nil") *)
| ErrDeadlineExceeded          (* the i/o timeout of an expired deadline *)
| ErrNet (msg : string)        (* any other failure of the connection *)
| ErrLib (msg : string).       (* an error returned by the dhcpv6 library *)

(** ** package time

    A [time.Time] is an instant, here the number of nanoseconds since the
    zero instant (January 1 of year 1, 00:00:00 UTC), which is what
    [Before] and [IsZero] look at; a [time.Duration] is a signed number of
    nanoseconds. *)
Module time.

Definition Duration := Z.
Definition Time := Z.

(** [time.Time{}] *)
Definition zero : Time := 0.

Definition Nanosecond : Duration := 1.
Definition Second : Duration := 1000000000 * Nanosecond.
Definition Minute : Duration := 60 * Second.
Definition Hour : Duration := 60 * Minute.

Definition Add (t : Time) (d : Duration) : Time := t + d.
Definition Before (t u : Time) : bool := t <? u.
Definition IsZero (t : Time) : bool := t =? 0.

End time.

(** ** package net *)
Module net.

Definition IP := list byte.
Definition HardwareAddr := list byte.

Record IPNet : Type := { IPNet_IP : IP; IPNet_Mask : list byte }.

Record UDPAddr : Type := { UDPAddr_IP : IP; Port : Z; Zone : string }.

(** What one call of [ReadFrom] finds: a datagram with its sender, or a
    failure of the read. *)
Inductive ReadEvent : Type :=
| Datagram (payload : list byte) (from : UDPAddr)
| ReadError (e : error).

(** A [PacketConn] as the client sees it over one run:
    [inbound] is what the successive reads will deliver before the read
    deadline expires, [writeResults] what the successive writes will
    answer ([None]: the write goes through), [outbound] the datagrams
    written so far, oldest first. *)
Record PacketConn : Type := {
  inbound : list ReadEvent;
  writeResults : list (option error);
  outbound : list (list byte * UDPAddr)
}.

(** Deadlines are points of real time; the script of the connection
    already says what arrives before them. *)
Definition SetWriteDeadline (c : PacketConn) (timeout : time.Duration) : PacketConn := c.
Definition SetReadDeadline (c : PacketConn) (timeout : time.Duration) : PacketConn := c.

Definition WriteTo (c : PacketConn) (b : list byte) (addr : UDPAddr)
  : option error * PacketConn :=
  match writeResults c with
  | Some e :: rest =>
      (Some e, {| inbound := inbound c; writeResults := rest; outbound := outbound c |})
  | None :: rest =>
      (None, {| inbound := inbound c; writeResults := rest;
                outbound := outbound c ++ [(b, addr)] |})
  | [] =>
      (None, {| inbound := inbound c; writeResults := [];
                outbound := outbound c ++ [(b, addr)] |})
  end.

(** [ReadFrom] into a buffer of [size] bytes: the datagram is cut to the
    buffer; with nothing left to deliver the deadline expires. *)
Definition ReadFrom (c : PacketConn) (size : N)
  : (list byte + error) * PacketConn :=
  match inbound c with
  | [] => (inr ErrDeadlineExceeded, c)
  | Datagram payload _ :: rest =>
      (inl (firstn (N.to_nat size) payload),
       {| inbound := rest; writeResults := writeResults c; outbound := outbound c |})
  | ReadError e :: rest =>
      (inr e,
       {| inbound := rest; writeResults := writeResults c; outbound := outbound c |})
  end.

End net.

(** ** package dhcpv6 (the library): data types and option accessors *)
Module dhcpv6.

(** [type MessageType uint8] *)
Definition MessageType := N.

Definition MessageTypeNone : MessageType := 0%N.
Definition MessageTypeSolicit : MessageType := 1%N.
Definition MessageTypeAdvertise : MessageType := 2%N.
Definition MessageTypeRequest : MessageType := 3%N.
Definition MessageTypeConfirm : MessageType := 4%N.
Definition MessageTypeRenew : MessageType := 5%N.
Definition MessageTypeRebind : MessageType := 6%N.
Definition MessageTypeReply : MessageType := 7%N.
Definition MessageTypeRelease : MessageType := 8%N.
Definition MessageTypeDecline : MessageType := 9%N.
Definition MessageTypeInformationRequest : MessageType := 11%N.
Definition MessageTypeRelayForward : MessageType := 12%N.
Definition MessageTypeRelayReply : MessageType := 13%N.
Definition MessageTypeLeaseQuery : MessageType := 14%N.
Definition MessageTypeLeaseQueryReply : MessageType := 15%N.

(** [type TransactionID [3]byte] *)
Definition TransactionID := (byte * byte * byte)%type.

Definition TransactionID_eqb (a b : TransactionID) : bool :=
  let '(a0, a1, a2) := a in
  let '(b0, b1, b2) := b in
  Byte.eqb a0 b0 && Byte.eqb a1 b1 && Byte.eqb a2 b2.

Record Duid : Type := {
  DuidType : N;
  HwType : N;
  DuidTime : N;
  LinkLayerAddr : net.HardwareAddr
}.

Record OptIAPrefix : Type := {
  PreferredLifetime : time.Duration;
  ValidLifetime : time.Duration;
  (* a [*net.IPNet] that the client dereferences: the pointee *)
  Prefix : net.IPNet
}.

(** The options inside an IA_PD. *)
Inductive PDOption : Type :=
| PDIAPrefix (p : OptIAPrefix)
| PDGeneric (code : N) (data : list byte).

Record OptIAPD : Type := {
  IaId : byte * byte * byte * byte;
  T1 : time.Duration;
  T2 : time.Duration;
  PDOptions : list PDOption
}.

(** The options of a message ([Option] is an interface in the library). *)
Inductive Option : Type :=
| IAPDOption (o : OptIAPD)
| DNSOption (nameServers : list net.IP)
| ClientIDOption (d : Duid)
| ServerIDOption (d : Duid)
| GenericOption (code : N) (data : list byte).

Record Message : Type := {
  MessageType_ : MessageType;
  TransactionID_ : TransactionID;
  Options : list Option
}.

(** [func (m *Message) Type() MessageType] *)
Definition Type_ (m : Message) : MessageType := MessageType_ m.

(** [m.AddOption(o)]: the option goes to the end of the list. *)
Definition AddOption (m : Message) (o : Option) : Message :=
  {| MessageType_ := MessageType_ m;
     TransactionID_ := TransactionID_ m;
     Options := Options m ++ [o] |}.

(** [m.Options.IAPD()]: every IA_PD option, in the order of the message. *)
Fixpoint IAPD (opts : list Option) : list OptIAPD :=
  match opts with
  | [] => []
  | IAPDOption o :: rest => o :: IAPD rest
  | _ :: rest => IAPD rest
  end.

(** [m.Options.OneIAPD()]: the first IA_PD option, if there is one. *)
Definition OneIAPD (opts : list Option) : option OptIAPD :=
  match IAPD opts with
  | [] => None
  | o :: _ => Some o
  end.

(** [iapd.Options.Prefixes()] *)
Fixpoint Prefixes (opts : list PDOption) : list OptIAPrefix :=
  match opts with
  | [] => []
  | PDIAPrefix p :: rest => p :: Prefixes rest
  | _ :: rest => Prefixes rest
  end.

(** [m.Options.DNS()]: the name servers of the first DNS option. *)
Fixpoint DNS (opts : list Option) : list net.IP :=
  match opts with
  | [] => []
  | DNSOption ns :: _ => ns
  | _ :: rest => DNS rest
  end.

(** [type Modifier func(d DHCPv6)] *)
Definition Modifier := Message -> Message.

End dhcpv6.

Import dhcpv6.

(** The functions of the library that the client calls and that stay
    abstract: parser, serialiser, message constructors. *)
Class Codec : Type := {
  (* dhcpv6.MessageFromBytes *)
  MessageFromBytes : list byte -> Message + error;
  (* Message.ToBytes *)
  ToBytes : Message -> list byte;
  (* dhcpv6.NewSolicit(hwaddr, modifiers...) *)
  NewSolicit : net.HardwareAddr -> list Modifier -> Message + error;
  (* dhcpv6.NewRequestFromAdvertise(adv, modifiers...), adv possibly nil *)
  NewRequestFromAdvertise : option Message -> list Modifier -> Message + error;
  (* dhcpv6.WithClientID *)
  WithClientID : Duid -> Modifier;
  (* net.IP.String *)
  IPString : net.IP -> string
}.

(** ** package dhcp6: the client *)

(** A [func() time.Time] that is called again and again: the readings it
    returns, in the order of the calls. *)
Definition Clock := nat -> time.Time.

Definition callClock (k : Clock) : time.Time * Clock :=
  (k 0%nat, fun n => k (S n)).

Record ClientConfig : Type := {
  CfgInterfaceName : string;
  CfgLocalAddr : option net.UDPAddr;
  CfgRemoteAddr : option net.UDPAddr;
  CfgDUID : option (list byte);
  CfgConn : option net.PacketConn;
  CfgTransactionIDs : list TransactionID;
  CfgHardwareAddr : option net.HardwareAddr
}.

(** [Config] contains the obtained network configuration. *)
Record Config : Type := {
  RenewAfter : time.Time;
  Prefixes : list net.IPNet;
  DNS : list string
}.

(** [var newCfg Config] *)
Definition zeroConfig : Config :=
  {| RenewAfter := time.zero; Prefixes := []; DNS := [] |}.

Record Client : Type := {
  interfaceName : string;
  hardwareAddr : net.HardwareAddr;
  raddr : net.UDPAddr;
  timeNow : Clock;
  duid : Duid;
  advertise : option Message;
  cfg : Config;
  err : option error;
  Conn : net.PacketConn;
  transactionIDs : list TransactionID;
  ReadTimeout : time.Duration;
  WriteTimeout : time.Duration;
  RemoteAddr : option net.UDPAddr
}.

(** Assignments to the fields that the methods write. *)
Definition set_timeNow (c : Client) (k : Clock) : Client :=
  {| interfaceName := interfaceName c; hardwareAddr := hardwareAddr c;
     raddr := raddr c; timeNow := k; duid := duid c;
     advertise := advertise c; cfg := cfg c; err := err c; Conn := Conn c;
     transactionIDs := transactionIDs c; ReadTimeout := ReadTimeout c;
     WriteTimeout := WriteTimeout c; RemoteAddr := RemoteAddr c |}.

Definition set_advertise (c : Client) (a : option Message) : Client :=
  {| interfaceName := interfaceName c; hardwareAddr := hardwareAddr c;
     raddr := raddr c; timeNow := timeNow c; duid := duid c;
     advertise := a; cfg := cfg c; err := err c; Conn := Conn c;
     transactionIDs := transactionIDs c; ReadTimeout := ReadTimeout c;
     WriteTimeout := WriteTimeout c; RemoteAddr := RemoteAddr c |}.

Definition set_cfg (c : Client) (newCfg : Config) : Client :=
  {| interfaceName := interfaceName c; hardwareAddr := hardwareAddr c;
     raddr := raddr c; timeNow := timeNow c; duid := duid c;
     advertise := advertise c; cfg := newCfg; err := err c; Conn := Conn c;
     transactionIDs := transactionIDs c; ReadTimeout := ReadTimeout c;
     WriteTimeout := WriteTimeout c; RemoteAddr := RemoteAddr c |}.

Definition set_err (c : Client) (e : option error) : Client :=
  {| interfaceName := interfaceName c; hardwareAddr := hardwareAddr c;
     raddr := raddr c; timeNow := timeNow c; duid := duid c;
     advertise := advertise c; cfg := cfg c; err := e; Conn := Conn c;
     transactionIDs := transactionIDs c; ReadTimeout := ReadTimeout c;
     WriteTimeout := WriteTimeout c; RemoteAddr := RemoteAddr c |}.

Definition set_Conn (c : Client) (conn : net.PacketConn) : Client :=
  {| interfaceName := interfaceName c; hardwareAddr := hardwareAddr c;
     raddr := raddr c; timeNow := timeNow c; duid := duid c;
     advertise := advertise c; cfg := cfg c; err := err c; Conn := conn;
     transactionIDs := transactionIDs c; ReadTimeout := ReadTimeout c;
     WriteTimeout := WriteTimeout c; RemoteAddr := RemoteAddr c |}.

Definition set_transactionIDs (c : Client) (ids : list TransactionID) : Client :=
  {| interfaceName := interfaceName c; hardwareAddr := hardwareAddr c;
     raddr := raddr c; timeNow := timeNow c; duid := duid c;
     advertise := advertise c; cfg := cfg c; err := err c; Conn := Conn c;
     transactionIDs := ids; ReadTimeout := ReadTimeout c;
     WriteTimeout := WriteTimeout c; RemoteAddr := RemoteAddr c |}.

(** [m.TransactionID = id] and [m.MessageType = t] *)
Definition set_TransactionID (m : Message) (id : TransactionID) : Message :=
  {| MessageType_ := MessageType_ m; TransactionID_ := id; Options := Options m |}.

Definition set_MessageType (m : Message) (t : MessageType) : Message :=
  {| MessageType_ := t; TransactionID_ := TransactionID_ m; Options := Options m |}.

(** arbitrary size. Theoretically could be up to 65kb *)
Definition maxUDPReceivedPacketSize : N := 8192%N.

(** What an exchange method ([solicit], [request], [Release]) returns.  Go
    returns a triple [(sent, reply, err)]: [inl (sent, reply)] stands for
    [(sent, reply, nil)], [inr (None, err)] for [(nil, nil, err)] and
    [inr (Some sent, err)] for [(sent, nil, err)]. *)
Definition Exchange : Type := (Message * Message) + (option Message * error).

Section Client.

Context {codec : Codec}.

(** The expected type that [sendReceive] works with (lines 173-184). *)
Definition inferExpectedType (packet : Message) (expectedType : MessageType)
  : MessageType :=
  if (expectedType =? MessageTypeNone)%N then
    (* infer the expected type from the packet being sent *)
    if (Type_ packet =? MessageTypeSolicit)%N then MessageTypeAdvertise
    else if (Type_ packet =? MessageTypeRequest)%N then MessageTypeReply
    else if (Type_ packet =? MessageTypeRelayForward)%N then MessageTypeRelayReply
    else if (Type_ packet =? MessageTypeLeaseQuery)%N then MessageTypeLeaseQueryReply
    else expectedType
  else expectedType.

(** The [for] loop of [sendReceive] (lines 197-220), over what the
    connection still has to deliver; it returns what is left of it.  One
    turn reads one event: [net.ReadFrom] on the head of [pending]. *)
Fixpoint receiveLoop (packet : Message) (expectedType : MessageType)
    (pending : list net.ReadEvent) {struct pending}
  : (Message + error) * list net.ReadEvent :=
  match pending with
  | [] => (inr ErrDeadlineExceeded, [])
  | net.ReadError e :: rest => (inr e, rest)
  | net.Datagram payload _ :: rest =>
      match MessageFromBytes (firstn (N.to_nat maxUDPReceivedPacketSize) payload) with
      | inr _ =>
          (* skip non-DHCP packets *)
          receiveLoop packet expectedType rest
      | inl adv =>
          if negb (TransactionID_eqb (TransactionID_ packet) (TransactionID_ adv)) then
            (* different XID, we don't want this packet for sure *)
            receiveLoop packet expectedType rest
          else if (expectedType =? MessageTypeNone)%N then
            (* just take whatever arrived *)
            (inl adv, rest)
          else if (MessageType_ adv =? expectedType)%N then
            (inl adv, rest)
          else receiveLoop packet expectedType rest
      end
  end.

Definition sendReceive (c : Client) (packet : option Message)
    (expectedType : MessageType) : (Message + error) * Client :=
  match packet with
  | None => (inr ErrNilPacket, c)
  | Some packet =>
      let expectedType := inferExpectedType packet expectedType in
      (* send the packet out *)
      let conn := net.SetWriteDeadline (Conn c) (WriteTimeout c) in
      let (werr, conn) := net.WriteTo conn (ToBytes packet) (raddr c) in
      match werr with
      | Some e => (inr e, set_Conn c conn)
      | None =>
          (* wait for a reply *)
          let conn := net.SetReadDeadline conn (ReadTimeout c) in
          let (res, rest) := receiveLoop packet expectedType (net.inbound conn) in
          (res, set_Conn c {| net.inbound := rest;
                              net.writeResults := net.writeResults conn;
                              net.outbound := net.outbound conn |})
      end
  end.

(** [&dhcpv6.OptIAPD{IaId: [4]byte{0, 0, 0, 1}}] *)
Definition solicitIAPD : OptIAPD :=
  {| IaId := (x00, x00, x00, x01); T1 := 0; T2 := 0; PDOptions := [] |}.

Definition solicit (c : Client) (solicit : option Message) : Exchange * Client :=
  let built :=
    match solicit with
    | None => NewSolicit (hardwareAddr c) [WithClientID (duid c)]
    | Some m => inl m
    end in
  match built with
  | inr err => (inr (None, err), c)
  | inl solicit =>
      let '(solicit, c) :=
        match transactionIDs c with
        | id :: rest => (set_TransactionID solicit id, set_transactionIDs c rest)
        | [] => (solicit, c)
        end in
      let solicit := AddOption solicit (IAPDOption solicitIAPD) in
      let (res, c) := sendReceive c (Some solicit) MessageTypeNone in
      match res with
      | inl advertise => (inl (solicit, advertise), c)
      | inr err => (inr (Some solicit, err), c)
      end
  end.

Definition request (c : Client) (advertise : Message) : Exchange * Client :=
  match NewRequestFromAdvertise (Some advertise) [WithClientID (duid c)] with
  | inr err => (inr (None, err), c)
  | inl request =>
      let request :=
        match OneIAPD (Options advertise) with
        | Some iapd => AddOption request (IAPDOption iapd)
        | None => request
        end in
      let '(request, c) :=
        match transactionIDs c with
        | id :: rest => (set_TransactionID request id, set_transactionIDs c rest)
        | [] => (request, c)
        end in
      let (res, c) := sendReceive c (Some request) MessageTypeNone in
      match res with
      | inl reply => (inl (request, reply), c)
      | inr err => (inr (Some request, err), c)
      end
  end.

(** Lines 274-286 of [ObtainOrRenew]: the new configuration read off the
    reply.  [c.timeNow()] is called once for every IA_PD. *)
Fixpoint configFromIAPDs (timeNow : Clock) (newCfg : Config)
    (iapds : list OptIAPD) {struct iapds} : Config * Clock :=
  match iapds with
  | [] => (newCfg, timeNow)
  | iapd :: rest =>
      let (now, timeNow) := callClock timeNow in
      let t1 := time.Add now (T1 iapd) in
      let newCfg :=
        if time.Before t1 (RenewAfter newCfg) || time.IsZero (RenewAfter newCfg)
        then {| RenewAfter := t1; Prefixes := Prefixes newCfg; DNS := DNS newCfg |}
        else newCfg in
      let newCfg :=
        fold_left
          (fun (newCfg : Config) (prefix : OptIAPrefix) =>
             {| RenewAfter := RenewAfter newCfg;
                Prefixes := Prefixes newCfg ++ [Prefix prefix];
                DNS := DNS newCfg |})
          (dhcpv6.Prefixes (PDOptions iapd)) newCfg in
      configFromIAPDs timeNow newCfg rest
  end.

Definition configFromReply (timeNow : Clock) (reply : Message) : Config * Clock :=
  let (newCfg, timeNow) := configFromIAPDs timeNow zeroConfig (IAPD (Options reply)) in
  let newCfg :=
    fold_left
      (fun (newCfg : Config) (dns : net.IP) =>
         {| RenewAfter := RenewAfter newCfg;
            Prefixes := Prefixes newCfg;
            DNS := DNS newCfg ++ [IPString dns] |})
      (dhcpv6.DNS (Options reply)) newCfg in
  (newCfg, timeNow).

Definition ObtainOrRenew (c : Client) : bool * Client :=
  let c := set_err c None in (* clear previous error *)
  let (res, c) := solicit c None in
  match res with
  | inr (_, err) => (true, set_err c (Some err))
  | inl (_, advertise) =>
      let c := set_advertise c (Some advertise) in
      let (res, c) := request c advertise in
      match res with
      | inr (_, err) => (true, set_err c (Some err))
      | inl (_, reply) =>
          let (newCfg, k) := configFromReply (timeNow c) reply in
          (true, set_cfg (set_timeNow c k) newCfg)
      end
  end.

Definition Release (c : Client) : Exchange * Client :=
  match NewRequestFromAdvertise (advertise c) [WithClientID (duid c)] with
  | inr err => (inr (None, err), c)
  | inl release =>
      let release := set_MessageType release MessageTypeRelease in
      let '(release, c) :=
        match transactionIDs c with
        | id :: rest => (set_TransactionID release id, set_transactionIDs c rest)
        | [] => (release, c)
        end in
      let (res, c) := sendReceive c (Some release) MessageTypeNone in
      match res with
      | inl reply => (inl (release, reply), c)
      | inr err => (inr (Some release, err), c)
      end
  end.

Definition Err (c : Client) : option error := err c.

(** The method [Config] of the client. *)
Definition Config' (c : Client) : Config := cfg c.

End Client.

(** ** Construction of a client *)


(** [net.Interface], the two fields that [NewClient] reads. *)
Record Interface : Type := { Index : Z; IfHardwareAddr : net.HardwareAddr }.

(** What [NewClient] asks of the host and of the library. *)
Class Host : Type := {
  InterfaceByName : string -> Interface + error;            (* net.InterfaceByName *)
  GetLinkLocalAddr : string -> net.IP + error;              (* dhcpv6.GetLinkLocalAddr *)
  DuidFromBytes : list byte -> Duid + error;                (* dhcpv6.DuidFromBytes *)
  GetTime : N;                                              (* dhcpv6.GetTime() *)
  ListenUDP : string -> net.UDPAddr -> net.PacketConn + error; (* net.ListenUDP *)
  Now : Clock;                                              (* time.Now *)
  DefaultReadTimeout : time.Duration;                       (* client6.DefaultReadTimeout *)
  DefaultWriteTimeout : time.Duration                       (* client6.DefaultWriteTimeout *)
}.

Definition DefaultClientPort : Z := 546.
Definition DefaultServerPort : Z := 547.

(** [ff02::1:2] *)
Definition AllDHCPRelayAgentsAndServers : net.IP :=
  [xff; x02; x00; x00; x00; x00; x00; x00; x00; x00; x00; x00; x00; x01; x00; x02].

Definition DUID_LLT : N := 1%N.
Definition HWTypeEthernet : N := 1%N.

(** [strconv.Itoa] *)
Definition Itoa (n : Z) : string := NilZero.string_of_int (Z.to_int n).

Section NewClient.

Context {host : Host}.

Definition NewClient (cfg : ClientConfig) : Client + error :=
  match InterfaceByName (CfgInterfaceName cfg) with
  | inr err => inr err
  | inl iface =>
      (* if no LocalAddr is specified, get the interface's link-local address *)
      let laddr :=
        match CfgLocalAddr cfg with
        | Some laddr => inl laddr
        | None =>
            match GetLinkLocalAddr (CfgInterfaceName cfg) with
            | inr err => inr err
            | inl llAddr =>
                inl {| net.UDPAddr_IP := llAddr;
                       net.Port := DefaultClientPort;
                       net.Zone := Itoa (Index iface) |}
            end
        end in
      match laddr with
      | inr err => inr err
      | inl laddr =>
          (* if no RemoteAddr is specified, use AllDHCPRelayAgentsAndServers *)
          let raddr :=
            match CfgRemoteAddr cfg with
            | Some raddr => raddr
            | None => {| net.UDPAddr_IP := AllDHCPRelayAgentsAndServers;
                         net.Port := DefaultServerPort;
                         net.Zone := EmptyString |}
            end in
          let hardwareAddr :=
            match CfgHardwareAddr cfg with
            | Some a => a
            | None => IfHardwareAddr iface
            end in
          let duid :=
            match CfgDUID cfg with
            | Some b => DuidFromBytes b
            | None => inl {| DuidType := DUID_LLT;
                             HwType := HWTypeEthernet;
                             DuidTime := GetTime;
                             LinkLayerAddr := hardwareAddr |}
            end in
          match duid with
          | inr err => inr err
          | inl duid =>
              (* prepare the socket to listen on for replies *)
              let conn :=
                match CfgConn cfg with
                | Some conn => inl conn
                | None => ListenUDP "udp6" laddr
                end in
              match conn with
              | inr err => inr err
              | inl conn =>
                  inl {| interfaceName := CfgInterfaceName cfg;
                         hardwareAddr := hardwareAddr;
                         timeNow := Now;
                         raddr := raddr;
                         Conn := conn;
                         duid := duid;
                         transactionIDs := CfgTransactionIDs cfg;
                         ReadTimeout := DefaultReadTimeout;
                         WriteTimeout := DefaultWriteTimeout;
                         advertise := None;
                         cfg := zeroConfig;
                         err := None;
                         RemoteAddr := None |}
              end
          end
      end
  end.

End NewClient.

(** ** What the properties speak about *)

(** The bytes that [MessageFromBytes] gets to see of a datagram: [buf[:n]]. *)
Definition received (payload : list byte) : list byte :=
  firstn (N.to_nat maxUDPReceivedPacketSize) payload.

(** The write of the exchange goes through. *)
Definition writeSucceeds (conn : net.PacketConn) : Prop :=
  hd None (net.writeResults conn) = None.

(** The connection after a write that went through. *)
Definition written (conn : net.PacketConn) (b : list byte) (addr : net.UDPAddr)
  : net.PacketConn :=
  {| net.inbound := net.inbound conn;
     net.writeResults := tl (net.writeResults conn);
     net.outbound := net.outbound conn ++ [(b, addr)] |}.

Definition with_inbound (conn : net.PacketConn) (l : list net.ReadEvent)
  : net.PacketConn :=
  {| net.inbound := l;
     net.writeResults := net.writeResults conn;
     net.outbound := net.outbound conn |}.

(** The message that an exchange method put on the wire, if it got that
    far: the first component of the triple. *)
Definition sentMessage (x : Exchange) : option Message :=
  match x with
  | inl (sent, _) => Some sent
  | inr (sent, _) => sent
  end.

(** The message after the step [if len(c.transactionIDs) > 0 { ... }] that the
    three exchange methods share: it carries the identifier at the front of
    the queue, or keeps its own when the queue is empty. *)
Definition stamped (ids : list TransactionID) (m : Message) : Message :=
  match ids with
  | id :: _ => set_TransactionID m id
  | [] => m
  end.

(** [c'] differs from [c] at most in the connection and in the queue of
    identifiers. *)
Definition onlyNetwork (c c' : Client) : Prop :=
  c' = set_transactionIDs (set_Conn c (Conn c')) (transactionIDs c').




(** The common end of the three exchange methods, from the message [m] that
    is about to be stamped: the queue popped, the exchange, the triple. *)
Definition exchange {codec : Codec} (c : Client) (m : Message) : Exchange * Client :=
  let sent := stamped (transactionIDs c) m in
  let r := sendReceive (set_transactionIDs c (tl (transactionIDs c)))
             (Some sent) MessageTypeNone in
  (match fst r with
   | inl reply => inl (sent, reply)
   | inr err => inr (Some sent, err)
   end, snd r).

Section Matching.

Context {codec : Codec}.

(** The three ways in which the loop passes over a datagram: it does not
    decode, it decodes to another transaction, or it decodes to the right
    transaction and a type other than the expected one. *)
Definition undecodable (payload : list byte) : Prop :=
  exists e, MessageFromBytes (received payload) = inr e.

Definition otherTransaction (packet : Message) (payload : list byte) : Prop :=
  exists m, MessageFromBytes (received payload) = inl m /\
            TransactionID_ m <> TransactionID_ packet.

Definition wrongType (packet : Message) (expected : MessageType)
    (payload : list byte) : Prop :=
  exists m, MessageFromBytes (received payload) = inl m /\
            TransactionID_ m = TransactionID_ packet /\
            expected <> MessageTypeNone /\
            MessageType_ m <> expected.

Definition discarded (packet : Message) (expected : MessageType)
    (ev : net.ReadEvent) : Prop :=
  exists payload from,
    ev = net.Datagram payload from /\
    (undecodable payload \/ otherTransaction packet payload \/
     wrongType packet expected payload).

(** The datagram decodes to [m], of the transaction of [packet] and, when
    a type is expected, of that type. *)
Definition matching (packet : Message) (expected : MessageType)
    (payload : list byte) (m : Message) : Prop :=
  MessageFromBytes (received payload) = inl m /\
  TransactionID_ m = TransactionID_ packet /\
  (expected = MessageTypeNone \/ MessageType_ m = expected).

End Matching.

(** ** A small codec and a client to run the methods on *)
Module Fixture.

(** One type byte, three bytes of transaction identifier; the options
    are not on the wire of this codec. *)
Definition decode (b : list byte) : Message + error :=
  match b with
  | t :: a0 :: a1 :: a2 :: _ =>
      inl {| MessageType_ := Byte.to_N t;
             TransactionID_ := (a0, a1, a2);
             Options := [] |}
  | _ => inr (ErrLib "short packet")
  end.

Definition encode (m : Message) : list byte :=
  let '(a0, a1, a2) := TransactionID_ m in
  match Byte.of_N (MessageType_ m) with
  | Some t => [t; a0; a1; a2]
  | None => [x00; a0; a1; a2]
  end.

Definition withClientID (d : Duid) : Modifier :=
  fun m => AddOption m (ClientIDOption d).

Definition generated : TransactionID := (xc0, xff, xee).

Definition newSolicit (hw : net.HardwareAddr) (mods : list Modifier)
  : Message + error :=
  inl (fold_left (fun m (f : Modifier) => f m) mods
         {| MessageType_ := MessageTypeSolicit;
            TransactionID_ := generated;
            Options := [] |}).

Definition newRequestFromAdvertise (adv : option Message) (mods : list Modifier)
  : Message + error :=
  match adv with
  | None => inr (ErrLib "ADVERTISE cannot be nil")
  | Some adv =>
      if (MessageType_ adv =? MessageTypeAdvertise)%N then
        inl (fold_left (fun m (f : Modifier) => f m) mods
               {| MessageType_ := MessageTypeRequest;
                  TransactionID_ := generated;
                  Options := [] |})
      else inr (ErrLib "The passed ADVERTISE must have ADVERTISE type set")
  end.

#[export] Instance codec : Codec :=
  {| MessageFromBytes := decode;
     ToBytes := encode;
     NewSolicit := newSolicit;
     NewRequestFromAdvertise := newRequestFromAdvertise;
     WithClientID := withClientID;
     IPString := fun _ => EmptyString |}.

Definition server : net.UDPAddr :=
  {| net.UDPAddr_IP := AllDHCPRelayAgentsAndServers;
     net.Port := DefaultServerPort;
     net.Zone := EmptyString |}.

Definition conn (events : list net.ReadEvent) : net.PacketConn :=
  {| net.inbound := events; net.writeResults := []; net.outbound := [] |}.

Definition duid0 : Duid :=
  {| DuidType := DUID_LLT; HwType := HWTypeEthernet; DuidTime := 0%N;
     LinkLayerAddr := [x02; x73; x53; x00; xca; xfe] |}.

(** A client over a connection that will deliver [events], with the
    deterministic identifiers [ids] and a clock that stands at [now]. *)
Definition client (events : list net.ReadEvent) (ids : list TransactionID)
    (now : time.Time) : Client :=
  {| interfaceName := "eth0";
     hardwareAddr := [x02; x73; x53; x00; xca; xfe];
     raddr := server;
     timeNow := fun _ => now;
     duid := duid0;
     advertise := None;
     cfg := zeroConfig;
     err := None;
     Conn := conn events;
     transactionIDs := ids;
     ReadTimeout := 3 * time.Second;
     WriteTimeout := 3 * time.Second;
     RemoteAddr := None |}.

Definition dgram (b : list byte) : net.ReadEvent := net.Datagram b server.

Definition xid1 : TransactionID := (x00, x11, x11).
Definition xid2 : TransactionID := (x00, x22, x22).

End Fixture.

(** ** Further vocabulary *)

(** Two events that the loop cannot tell apart: two failed reads with the
    same error, or two datagrams with the same first
    [maxUDPReceivedPacketSize] bytes, from whatever senders. *)
Definition sameReceived (ev ev' : net.ReadEvent) : Prop :=
  match ev, ev' with
  | net.Datagram p _, net.Datagram p' _ => received p = received p'
  | net.ReadError e, net.ReadError e' => e = e'
  | _, _ => False
  end.

(** The client over a connection that will deliver [events]. *)
Definition delivering (c : Client) (events : list net.ReadEvent) : Client :=
  set_Conn c (with_inbound (Conn c) events).

(** The connection after a write that failed. *)
Definition unwritten (conn : net.PacketConn) : net.PacketConn :=
  {| net.inbound := net.inbound conn;
     net.writeResults := tl (net.writeResults conn);
     net.outbound := net.outbound conn |}.




(** A codec whose messages carry a lease: like [Fixture.codec], and a fifth
    byte [h] on the wire stands for an IA_PD with T1 of [h] hours that
    delegates 2001:db8::/48, followed by the name server 2001:db8::53. *)
Module Lease.

Definition prefix48 : net.IPNet :=
  {| net.IPNet_IP := [x20; x01; x0d; xb8; x00; x00; x00; x00;
                      x00; x00; x00; x00; x00; x00; x00; x00];
     net.IPNet_Mask := [xff; xff; xff; xff; xff; xff; x00; x00;
                        x00; x00; x00; x00; x00; x00; x00; x00] |}.

Definition nameServer : net.IP :=
  [x20; x01; x0d; xb8; x00; x00; x00; x00; x00; x00; x00; x00; x00; x00; x00; x53].

Definition iapd (hours : byte) : OptIAPD :=
  {| IaId := (x00, x00, x00, x01);
     T1 := Z.of_N (Byte.to_N hours) * time.Hour;
     T2 := 0;
     PDOptions := [PDIAPrefix {| PreferredLifetime := 0; ValidLifetime := 0;
                                 Prefix := prefix48 |}] |}.

Definition decode (b : list byte) : Message + error :=
  match b with
  | t :: a0 :: a1 :: a2 :: rest =>
      inl {| MessageType_ := Byte.to_N t;
             TransactionID_ := (a0, a1, a2);
             Options := match rest with
                        | h :: _ => [IAPDOption (iapd h); DNSOption [nameServer]]
                        | [] => []
                        end |}
  | _ => inr (ErrLib "short packet")
  end.

#[export] Instance codec : Codec :=
  {| MessageFromBytes := decode;
     ToBytes := Fixture.encode;
     NewSolicit := Fixture.newSolicit;
     NewRequestFromAdvertise := Fixture.newRequestFromAdvertise;
     WithClientID := Fixture.withClientID;
     IPString := fun _ => "2001:db8::53"%string |}.

End Lease.


(** A host with the single interface eth0, without a link-local address
    and without a socket to listen on. *)
Module TestHost.

Definition eth0 : Interface :=
  {| Index := 2; IfHardwareAddr := [x02; x73; x53; x00; xca; xfe] |}.

#[export] Instance host : Host :=
  {| InterfaceByName := fun name =>
       if String.eqb name "eth0" then inl eth0
       else inr (ErrNet "no such network interface");
     GetLinkLocalAddr := fun _ => inr (ErrNet "no link-local address");
     DuidFromBytes := fun _ => inr (ErrLib "buffer too short");
     GetTime := 600000000%N;
     ListenUDP := fun _ _ => inr (ErrNet "address already in use");
     Now := fun _ => 63000000000 * time.Second;
     DefaultReadTimeout := 3 * time.Second;
     DefaultWriteTimeout := 3 * time.Second |}.

Definition local : net.UDPAddr :=
  {| net.UDPAddr_IP := [xfe; x80; x00; x00; x00; x00; x00; x00;
                        x00; x00; x00; x00; x00; x00; x00; x01];
     net.Port := DefaultClientPort;
     net.Zone := "2" |}.

(** The configuration of a test: own connection, own local address, own
    hardware address, two identifiers. *)
Definition config : ClientConfig :=
  {| CfgInterfaceName := "eth0";
     CfgLocalAddr := Some local;
     CfgRemoteAddr := None;
     CfgDUID := None;
     CfgConn := Some (Fixture.conn [Fixture.dgram [x02; x00; x11; x11]]);
     CfgTransactionIDs := [Fixture.xid1; Fixture.xid2];
     CfgHardwareAddr := Some [x02; x00; x00; x00; x00; x01] |}.

(** The client that [NewClient] makes of it. *)
Definition client : Client :=
  Eval cbv in
    match NewClient (host := host) config with
    | inl c => c
    | inr _ => Fixture.client [] [] 0
    end.

End TestHost.

(** ** The receive loop *)

Lemma TransactionID_eqb_eq (a b : TransactionID) :
  TransactionID_eqb a b = true <-> a = b.
Proof.
  destruct a as [[a0 a1] a2], b as [[b0 b1] b2]; unfold TransactionID_eqb.
  rewrite !andb_true_iff. split.
  - intros [[H0 H1] H2].
    apply Byte.byte_dec_bl in H0, H1, H2. congruence.
  - intros H; inversion H; subst.
    repeat split; apply Byte.byte_dec_lb; reflexivity.
Qed.

Lemma TransactionID_eqb_neq (a b : TransactionID) :
  TransactionID_eqb a b = false <-> a <> b.
Proof.
  rewrite <- TransactionID_eqb_eq.
  destruct (TransactionID_eqb a b); split; congruence.
Qed.

Section ReceiveLoop.

Context {codec : Codec}.

Variables (packet : Message) (expected : MessageType).

(** One turn of the loop is one [ReadFrom] on the connection. *)
Lemma receiveLoop_ReadFrom (conn : net.PacketConn) :
  receiveLoop packet expected (net.inbound conn) =
  match net.ReadFrom conn maxUDPReceivedPacketSize with
  | (inr e, conn') => (inr e, net.inbound conn')
  | (inl buf, conn') =>
      match MessageFromBytes buf with
      | inr _ => receiveLoop packet expected (net.inbound conn')
      | inl adv =>
          if negb (TransactionID_eqb (TransactionID_ packet) (TransactionID_ adv))
          then receiveLoop packet expected (net.inbound conn')
          else if (expected =? MessageTypeNone)%N then (inl adv, net.inbound conn')
          else if (MessageType_ adv =? expected)%N then (inl adv, net.inbound conn')
          else receiveLoop packet expected (net.inbound conn')
      end
  end.
Proof.
  unfold net.ReadFrom.
  destruct (net.inbound conn) as [|[payload from|e] rest] eqn:E;
    cbn [receiveLoop]; try reflexivity.
  rewrite E. reflexivity.
Qed.

Lemma receiveLoop_discarded (ev : net.ReadEvent) (rest : list net.ReadEvent) :
  discarded packet expected ev ->
  receiveLoop packet expected (ev :: rest) = receiveLoop packet expected rest.
Proof.
  intros (payload & from & -> & H). cbn [receiveLoop]. fold (received payload).
  destruct H as [[e He] | [(m & Hm & Hx) | (m & Hm & Hx & Hn & Ht)]].
  - rewrite He. reflexivity.
  - rewrite Hm.
    assert (TransactionID_eqb (TransactionID_ packet) (TransactionID_ m) = false) as ->
      by (apply TransactionID_eqb_neq; congruence).
    reflexivity.
  - rewrite Hm.
    assert (TransactionID_eqb (TransactionID_ packet) (TransactionID_ m) = true) as ->
      by (apply TransactionID_eqb_eq; congruence).
    apply N.eqb_neq in Hn, Ht. cbn [negb]. rewrite Hn, Ht. reflexivity.
Qed.

Lemma receiveLoop_skip (pre rest : list net.ReadEvent) :
  Forall (discarded packet expected) pre ->
  receiveLoop packet expected (pre ++ rest) = receiveLoop packet expected rest.
Proof.
  induction 1 as [|ev pre Hev _ IH]; [reflexivity|].
  rewrite <- app_comm_cons, receiveLoop_discarded by assumption. exact IH.
Qed.

Lemma receiveLoop_matching (payload : list byte) (from : net.UDPAddr)
    (m : Message) (rest : list net.ReadEvent) :
  matching packet expected payload m ->
  receiveLoop packet expected (net.Datagram payload from :: rest) = (inl m, rest).
Proof.
  intros (Hm & Hx & Ht). cbn [receiveLoop]. fold (received payload). rewrite Hm.
  assert (TransactionID_eqb (TransactionID_ packet) (TransactionID_ m) = true) as ->
    by (apply TransactionID_eqb_eq; congruence).
  cbn [negb].
  destruct Ht as [-> | Ht]; [reflexivity|].
  destruct (expected =? MessageTypeNone)%N; [reflexivity|].
  apply N.eqb_eq in Ht. rewrite Ht. reflexivity.
Qed.

(** Every datagram is either passed over or taken. *)
Lemma datagram_cases (payload : list byte) (from : net.UDPAddr) :
  discarded packet expected (net.Datagram payload from) \/
  exists m, matching packet expected payload m.
Proof.
  unfold discarded, matching, undecodable, otherTransaction, wrongType.
  destruct (MessageFromBytes (received payload)) as [m|e] eqn:Hm.
  - destruct (TransactionID_eqb (TransactionID_ packet) (TransactionID_ m)) eqn:Hx.
    + apply TransactionID_eqb_eq in Hx.
      destruct (N.eq_dec expected MessageTypeNone) as [Hn|Hn].
      * right. exists m. auto.
      * destruct (N.eq_dec (MessageType_ m) expected) as [Ht|Ht].
        -- right. exists m. auto.
        -- left. exists payload, from. split; [reflexivity|].
           right; right. exists m. split; [exact Hm|]. auto.
    + apply TransactionID_eqb_neq in Hx.
      left. exists payload, from. split; [reflexivity|].
      right; left. exists m. split; [exact Hm | congruence].
  - left. exists payload, from. split; [reflexivity|].
    left. exists e. exact Hm.
Qed.

(** What a message returned by the loop is: the first datagram that is
    not passed over. *)
Lemma receiveLoop_inl (pending rest : list net.ReadEvent) (m : Message) :
  receiveLoop packet expected pending = (inl m, rest) ->
  exists pre payload from,
    pending = pre ++ net.Datagram payload from :: rest /\
    Forall (discarded packet expected) pre /\
    matching packet expected payload m.
Proof.
  induction pending as [|ev pending IH]; [discriminate|].
  destruct ev as [payload from|e]; [|discriminate].
  destruct (datagram_cases payload from) as [Hd | [m' Hm']].
  - rewrite receiveLoop_discarded by assumption. intros H.
    destruct (IH H) as (pre & payload' & from' & -> & Hpre & Hm).
    exists (net.Datagram payload from :: pre), payload', from'.
    split; [reflexivity|]. split; [constructor; assumption | assumption].
  - rewrite (receiveLoop_matching from pending Hm'). intros H.
    inversion H; subst.
    exists [], payload, from. split; [reflexivity|]. split; [constructor | assumption].
Qed.

(** What an error returned by the loop is: the first read that fails, or
    the expiry of the deadline, after nothing but datagrams passed over. *)
Lemma receiveLoop_inr (pending rest : list net.ReadEvent) (e : error) :
  receiveLoop packet expected pending = (inr e, rest) ->
  exists pre,
    Forall (discarded packet expected) pre /\
    ((pending = pre /\ rest = [] /\ e = ErrDeadlineExceeded) \/
     pending = pre ++ net.ReadError e :: rest).
Proof.
  induction pending as [|ev pending IH].
  - intros H; inversion H; subst. exists []. split; [constructor | auto].
  - destruct ev as [payload from|e'].
    + destruct (datagram_cases payload from) as [Hd | [m' Hm']].
      * rewrite receiveLoop_discarded by assumption. intros H.
        destruct (IH H) as (pre & Hpre & Hcase).
        exists (net.Datagram payload from :: pre).
        split; [constructor; assumption|].
        destruct Hcase as [(-> & -> & ->) | ->]; [left | right]; auto.
      * rewrite (receiveLoop_matching from pending Hm'). discriminate.
    + intros H; inversion H; subst. exists []. split; [constructor | right; reflexivity].
Qed.

End ReceiveLoop.

Section SendReceive.

Context {codec : Codec}.

Lemma WriteTo_succeeds (conn : net.PacketConn) (b : list byte) (addr : net.UDPAddr) :
  writeSucceeds conn ->
  net.WriteTo conn b addr = (None, written conn b addr).
Proof.
  unfold writeSucceeds, net.WriteTo, written.
  destruct (net.writeResults conn) as [|[e|] rest]; cbn; intros H;
    [reflexivity | discriminate | reflexivity].
Qed.

Lemma WriteTo_fails (conn : net.PacketConn) (b : list byte) (addr : net.UDPAddr) :
  ~ writeSucceeds conn ->
  exists e conn', net.WriteTo conn b addr = (Some e, conn') /\
                  net.inbound conn' = net.inbound conn /\
                  net.outbound conn' = net.outbound conn.
Proof.
  unfold writeSucceeds, net.WriteTo.
  destruct (net.writeResults conn) as [|[e|] rest]; cbn; intros H;
    [congruence | | congruence].
  eexists _, _. split; [reflexivity|]. split; reflexivity.
Qed.

(** The exchange once the packet is out: the result of the loop, and the
    connection with the packet written and the events read taken off. *)
Lemma sendReceive_written (c : Client) (packet : Message) (expectedType : MessageType) :
  writeSucceeds (Conn c) ->
  sendReceive c (Some packet) expectedType =
  let r := receiveLoop packet (inferExpectedType packet expectedType)
             (net.inbound (Conn c)) in
  (fst r,
   set_Conn c (with_inbound (written (Conn c) (ToBytes packet) (raddr c)) (snd r))).
Proof.
  intros Hw. unfold sendReceive, net.SetWriteDeadline, net.SetReadDeadline.
  rewrite (WriteTo_succeeds _ _ Hw). cbn [written net.inbound].
  destruct (receiveLoop _ _ _) as [res rest]. reflexivity.
Qed.

(** A message comes back only out of the loop. *)
Lemma sendReceive_inl (c c' : Client) (packet : option Message)
    (expectedType : MessageType) (reply : Message) :
  sendReceive c packet expectedType = (inl reply, c') ->
  exists sent rest,
    packet = Some sent /\
    writeSucceeds (Conn c) /\
    receiveLoop sent (inferExpectedType sent expectedType) (net.inbound (Conn c))
      = (inl reply, rest) /\
    c' = set_Conn c (with_inbound (written (Conn c) (ToBytes sent) (raddr c)) rest).
Proof.
  destruct packet as [sent|]; [|discriminate].
  destruct (hd None (net.writeResults (Conn c))) as [e|] eqn:Hw.
  - assert (~ writeSucceeds (Conn c)) as Hn by (unfold writeSucceeds; congruence).
    destruct (WriteTo_fails (ToBytes sent) (raddr c) Hn) as (e' & conn' & HW & _).
    unfold sendReceive, net.SetWriteDeadline. rewrite HW. discriminate.
  - rewrite sendReceive_written by exact Hw. cbv zeta.
    destruct (receiveLoop _ _ _) as [res rest] eqn:Hl. cbn [fst snd].
    intros H; inversion H; subst.
    exists sent, rest. repeat split; assumption.
Qed.

End SendReceive.

(** ** The exchange: [sendReceive] *)

(** C1.  Whenever [sendReceive] returns a message rather than an error, a
    packet was given to it and the TransactionID of the returned message is
    the TransactionID of that packet: no message of any other transaction
    is ever returned. *)
Theorem sendReceive_returns_sent_TransactionID {codec : Codec}
    (c c' : Client) (packet : option Message) (expectedType : MessageType)
    (reply : Message) :
  sendReceive c packet expectedType = (inl reply, c') ->
  exists sent, packet = Some sent /\ TransactionID_ reply = TransactionID_ sent.
Proof.
  intros H.
  destruct (sendReceive_inl _ _ _ H) as (sent & rest & -> & _ & Hloop & _).
  destruct (receiveLoop_inl _ _ _ Hloop) as (pre & payload & from & _ & _ & Hm).
  exists sent. split; [reflexivity|]. apply Hm.
Qed.

(** A Solicit of transaction [xid1] that is answered, after an Advertise of
    transaction [xid2], by an Advertise of transaction [xid1]. *)
Lemma sendReceive_returns_sent_TransactionID_witness :
  exists sent,
    Some {| MessageType_ := MessageTypeSolicit; TransactionID_ := Fixture.xid1;
            Options := [] |} = Some sent /\
    TransactionID_ {| MessageType_ := MessageTypeAdvertise;
                      TransactionID_ := Fixture.xid1; Options := [] |}
    = TransactionID_ sent.
Proof.
  eapply (@sendReceive_returns_sent_TransactionID Fixture.codec
            (Fixture.client [Fixture.dgram [x02; x00; x22; x22];
                             Fixture.dgram [x02; x00; x11; x11]] [] 0)
            _ _ MessageTypeNone).
  vm_compute. reflexivity.
Defined.

(** C2.  Let the write of the exchange go through and let the connection
    deliver the events [pre], then a datagram [payload], then [post].  If
    every event of [pre] is a datagram that does not decode, or decodes to
    another TransactionID, or decodes to the TransactionID of the packet
    and a type other than the expected one, and if [payload] decodes to a
    message [m] of the packet's TransactionID and (when a type is expected)
    of the expected type, then [sendReceive] returns [m]: the first such
    datagram.  The datagrams of [pre] are consumed, [post] is left on the
    connection. *)
Theorem sendReceive_returns_first_match {codec : Codec}
    (c : Client) (packet : Message) (expectedType : MessageType)
    (pre post : list net.ReadEvent) (payload : list byte) (from : net.UDPAddr)
    (m : Message) :
  writeSucceeds (Conn c) ->
  net.inbound (Conn c) = pre ++ net.Datagram payload from :: post ->
  Forall (discarded packet (inferExpectedType packet expectedType)) pre ->
  matching packet (inferExpectedType packet expectedType) payload m ->
  sendReceive c (Some packet) expectedType =
  (inl m, set_Conn c (with_inbound (written (Conn c) (ToBytes packet) (raddr c)) post)).
Proof.
  intros Hw Hin Hpre Hm.
  rewrite sendReceive_written by exact Hw. cbv zeta.
  rewrite Hin, receiveLoop_skip by exact Hpre.
  rewrite (receiveLoop_matching from post Hm). reflexivity.
Qed.

(** The two cases of the specification: a Reply of the right transaction
    before the expected Advertise, and an Advertise of another transaction
    before the one of the right transaction. *)
Lemma sendReceive_returns_first_match_witness :
  let solicit1 := {| MessageType_ := MessageTypeSolicit;
                     TransactionID_ := Fixture.xid1; Options := [] |} in
  let advertise1 := {| MessageType_ := MessageTypeAdvertise;
                       TransactionID_ := Fixture.xid1; Options := [] |} in
  let typeFirst := Fixture.client [Fixture.dgram [x07; x00; x11; x11];
                                   Fixture.dgram [x02; x00; x11; x11]] [] 0 in
  let xidFirst := Fixture.client [Fixture.dgram [x02; x00; x22; x22];
                                  Fixture.dgram [x02; x00; x11; x11]] [] 0 in
  fst (sendReceive (codec := Fixture.codec) typeFirst (Some solicit1) MessageTypeNone) = inl advertise1 /\
  fst (sendReceive (codec := Fixture.codec) xidFirst (Some solicit1) MessageTypeNone) = inl advertise1.
Proof.
  cbv zeta. split.
  - rewrite (@sendReceive_returns_first_match Fixture.codec _ _ MessageTypeNone
               [Fixture.dgram [x07; x00; x11; x11]] []
               [x02; x00; x11; x11] Fixture.server
               {| MessageType_ := MessageTypeAdvertise;
                  TransactionID_ := Fixture.xid1; Options := [] |}).
    + reflexivity.
    + reflexivity.
    + reflexivity.
    + constructor; [|constructor].
      exists [x07; x00; x11; x11], Fixture.server. split; [reflexivity|].
      right; right. eexists. split; [vm_compute; reflexivity|].
      split; [reflexivity|]. split; vm_compute; discriminate.
    + split; [vm_compute; reflexivity|]. split; [reflexivity|]. right. reflexivity.
  - rewrite (@sendReceive_returns_first_match Fixture.codec _ _ MessageTypeNone
               [Fixture.dgram [x02; x00; x22; x22]] []
               [x02; x00; x11; x11] Fixture.server
               {| MessageType_ := MessageTypeAdvertise;
                  TransactionID_ := Fixture.xid1; Options := [] |}).
    + reflexivity.
    + reflexivity.
    + reflexivity.
    + constructor; [|constructor].
      exists [x02; x00; x22; x22], Fixture.server. split; [reflexivity|].
      right; left. eexists. split; [vm_compute; reflexivity|].
      vm_compute; discriminate.
    + split; [vm_compute; reflexivity|]. split; [reflexivity|]. right. reflexivity.
Defined.



(** C4.  Let the write of the exchange go through and let the connection
    deliver nothing but datagrams that the loop passes over (undecodable,
    other transaction, or wrong type), however many.  If nothing else
    arrives before the read deadline, [sendReceive] fails with the error of
    the expired deadline.  If a read fails with [e] after them,
    [sendReceive] fails with [e] at once, and what the connection would
    have delivered after the failed read stays unread.  Undecodable
    datagrams are among those passed over: a decode failure never ends the
    exchange. *)
Theorem sendReceive_fails_with_read_error {codec : Codec}
    (c : Client) (packet : Message) (expectedType : MessageType)
    (pre : list net.ReadEvent) :
  writeSucceeds (Conn c) ->
  Forall (discarded packet (inferExpectedType packet expectedType)) pre ->
  (net.inbound (Conn c) = pre ->
   sendReceive c (Some packet) expectedType =
   (inr ErrDeadlineExceeded,
    set_Conn c (with_inbound (written (Conn c) (ToBytes packet) (raddr c)) []))) /\
  (forall (e : error) (post : list net.ReadEvent),
     net.inbound (Conn c) = pre ++ net.ReadError e :: post ->
     sendReceive c (Some packet) expectedType =
     (inr e,
      set_Conn c (with_inbound (written (Conn c) (ToBytes packet) (raddr c)) post))).
Proof.
  intros Hw Hpre. split.
  - intros Hin. rewrite sendReceive_written by exact Hw. cbv zeta.
    rewrite Hin, <- (app_nil_r pre), receiveLoop_skip by exact Hpre. reflexivity.
  - intros e post Hin. rewrite sendReceive_written by exact Hw. cbv zeta.
    rewrite Hin, receiveLoop_skip by exact Hpre. reflexivity.
Qed.

(** A Solicit that meets a short datagram, another transaction and a Reply
    of its own transaction: the deadline expires; and the same traffic
    followed by a failed read, with a matching Advertise behind it. *)
Lemma sendReceive_fails_with_read_error_witness :
  let solicit1 := {| MessageType_ := MessageTypeSolicit;
                     TransactionID_ := Fixture.xid1; Options := [] |} in
  let noise := [Fixture.dgram [x02; x00];
                Fixture.dgram [x02; x00; x22; x22];
                Fixture.dgram [x07; x00; x11; x11]] in
  fst (sendReceive (codec := Fixture.codec) (Fixture.client noise [] 0) (Some solicit1) MessageTypeNone)
  = inr ErrDeadlineExceeded /\
  fst (sendReceive (codec := Fixture.codec)
         (Fixture.client (noise ++ [net.ReadError (ErrNet "connection refused");
                                    Fixture.dgram [x02; x00; x11; x11]]) [] 0)
         (Some solicit1) MessageTypeNone)
  = inr (ErrNet "connection refused").
Proof.
  cbv zeta.
  assert (Forall (discarded (codec := Fixture.codec)
                    {| MessageType_ := MessageTypeSolicit;
                       TransactionID_ := Fixture.xid1; Options := [] |}
                    (inferExpectedType
                       {| MessageType_ := MessageTypeSolicit;
                          TransactionID_ := Fixture.xid1; Options := [] |}
                       MessageTypeNone))
            [Fixture.dgram [x02; x00];
             Fixture.dgram [x02; x00; x22; x22];
             Fixture.dgram [x07; x00; x11; x11]]) as Hnoise.
  { repeat constructor.
    - exists [x02; x00], Fixture.server. split; [reflexivity|].
      left. eexists. vm_compute. reflexivity.
    - exists [x02; x00; x22; x22], Fixture.server. split; [reflexivity|].
      right; left. eexists. split; [vm_compute; reflexivity|]. vm_compute; discriminate.
    - exists [x07; x00; x11; x11], Fixture.server. split; [reflexivity|].
      right; right. eexists. split; [vm_compute; reflexivity|].
      split; [reflexivity|]. split; vm_compute; discriminate. }
  split.
  - rewrite (proj1 (@sendReceive_fails_with_read_error Fixture.codec
                      (Fixture.client _ [] 0) _ MessageTypeNone _
                      eq_refl Hnoise) eq_refl).
    reflexivity.
  - rewrite (proj2 (@sendReceive_fails_with_read_error Fixture.codec
                      (Fixture.client _ [] 0) _ MessageTypeNone _
                      eq_refl Hnoise)
               (ErrNet "connection refused")
               [Fixture.dgram [x02; x00; x11; x11]] eq_refl).
    reflexivity.
Defined.

(** ** What the methods leave alone *)

Section Frame.

Context {codec : Codec}.

(** [sendReceive] touches nothing of the client but the connection. *)
Lemma sendReceive_frame (c : Client) (packet : option Message) (t : MessageType) :
  snd (sendReceive c packet t) = set_Conn c (Conn (snd (sendReceive c packet t))).
Proof.
  unfold sendReceive. destruct packet as [packet|]; [|destruct c; reflexivity].
  unfold net.SetWriteDeadline, net.SetReadDeadline.
  destruct (net.WriteTo _ _ _) as [[e|] conn]; [reflexivity|].
  destruct (receiveLoop _ _ _) as [res rest]. reflexivity.
Qed.

(** The exchange does not look at the fields [err], [advertise], [cfg]
    and [transactionIDs]. *)
Lemma sendReceive_set_err (c : Client) (x : option error)
    (packet : option Message) (t : MessageType) :
  sendReceive (set_err c x) packet t =
  (fst (sendReceive c packet t), set_err (snd (sendReceive c packet t)) x).
Proof.
  unfold sendReceive. destruct packet as [packet|]; [|reflexivity].
  unfold net.SetWriteDeadline, net.SetReadDeadline. cbn [set_err Conn raddr].
  destruct (net.WriteTo _ _ _) as [[e|] conn]; [reflexivity|].
  destruct (receiveLoop _ _ _) as [res rest]. reflexivity.
Qed.

Lemma sendReceive_set_advertise (c : Client) (x : option Message)
    (packet : option Message) (t : MessageType) :
  sendReceive (set_advertise c x) packet t =
  (fst (sendReceive c packet t), set_advertise (snd (sendReceive c packet t)) x).
Proof.
  unfold sendReceive. destruct packet as [packet|]; [|reflexivity].
  unfold net.SetWriteDeadline, net.SetReadDeadline. cbn [set_advertise Conn raddr].
  destruct (net.WriteTo _ _ _) as [[e|] conn]; [reflexivity|].
  destruct (receiveLoop _ _ _) as [res rest]. reflexivity.
Qed.

Lemma sendReceive_set_transactionIDs (c : Client) (ids : list TransactionID)
    (packet : option Message) (t : MessageType) :
  sendReceive (set_transactionIDs c ids) packet t =
  (fst (sendReceive c packet t),
   set_transactionIDs (snd (sendReceive c packet t)) ids).
Proof.
  unfold sendReceive. destruct packet as [packet|]; [|reflexivity].
  unfold net.SetWriteDeadline, net.SetReadDeadline.
  cbn [set_transactionIDs Conn raddr].
  destruct (net.WriteTo _ _ _) as [[e|] conn]; [reflexivity|].
  destruct (receiveLoop _ _ _) as [res rest]. reflexivity.
Qed.

End Frame.

(** ** The exchange methods: [solicit], [request], [Release] *)

Section Methods.

Context {codec : Codec}.

Lemma onlyNetwork_refl (c : Client) : onlyNetwork c c.
Proof. destruct c; reflexivity. Qed.

Lemma onlyNetwork_sendReceive (c : Client) (ids : list TransactionID)
    (packet : option Message) (t : MessageType) :
  onlyNetwork c (snd (sendReceive (set_transactionIDs c ids) packet t)).
Proof.
  unfold onlyNetwork. rewrite sendReceive_set_transactionIDs. cbn [snd].
  rewrite sendReceive_frame. destruct c; reflexivity.
Qed.


Lemma sendReceive_same_queue (c : Client) (packet : option Message) (t : MessageType) :
  sendReceive c packet t = sendReceive (set_transactionIDs c (transactionIDs c)) packet t.
Proof. destruct c; reflexivity. Qed.

Lemma solicit_exchange (c : Client) (given : option Message) (m0 : Message) :
  match given with
  | None => NewSolicit (hardwareAddr c) [WithClientID (duid c)]
  | Some m => inl m
  end = inl m0 ->
  solicit c given =
  exchange c (AddOption m0 (IAPDOption solicitIAPD)).
Proof.
  intros Hb. unfold solicit, exchange. rewrite Hb.
  destruct (transactionIDs c) as [|id rest] eqn:Hq; cbn [stamped tl].
  - rewrite <- Hq, <- sendReceive_same_queue.
    destruct (sendReceive c _ _) as [[adv|e] c']; reflexivity.
  - destruct (sendReceive (set_transactionIDs c rest) _ _) as [[adv|e] c'];
      reflexivity.
Qed.

Lemma request_exchange (c : Client) (adv r0 : Message) :
  NewRequestFromAdvertise (Some adv) [WithClientID (duid c)] = inl r0 ->
  request c adv =
  exchange c (match OneIAPD (Options adv) with
              | Some iapd => AddOption r0 (IAPDOption iapd)
              | None => r0
              end).
Proof.
  intros Hb. unfold request, exchange. rewrite Hb.
  destruct (transactionIDs c) as [|id rest] eqn:Hq; cbn [stamped tl].
  - rewrite <- Hq, <- sendReceive_same_queue.
    destruct (sendReceive c _ _) as [[rep|e] c']; reflexivity.
  - destruct (sendReceive (set_transactionIDs c rest) _ _) as [[rep|e] c'];
      reflexivity.
Qed.

Lemma Release_exchange (c : Client) (r0 : Message) :
  NewRequestFromAdvertise (advertise c) [WithClientID (duid c)] = inl r0 ->
  Release c = exchange c (set_MessageType r0 MessageTypeRelease).
Proof.
  intros Hb. unfold Release, exchange. rewrite Hb.
  destruct (transactionIDs c) as [|id rest] eqn:Hq; cbn [stamped tl].
  - rewrite <- Hq, <- sendReceive_same_queue.
    destruct (sendReceive c _ _) as [[rep|e] c']; reflexivity.
  - destruct (sendReceive (set_transactionIDs c rest) _ _) as [[rep|e] c'];
      reflexivity.
Qed.

Lemma exchange_sent (c : Client) (m : Message) :
  sentMessage (fst (exchange c m)) = Some (stamped (transactionIDs c) m).
Proof.
  unfold exchange. cbn [fst].
  destruct (fst (sendReceive _ _ _)) as [reply|e]; reflexivity.
Qed.


Lemma exchange_onlyNetwork (c : Client) (m : Message) :
  onlyNetwork c (snd (exchange c m)).
Proof. unfold exchange. cbn [snd]. apply onlyNetwork_sendReceive. Qed.

(** The packet of a written exchange is on the wire, last. *)
Lemma exchange_outbound (c : Client) (m : Message) :
  writeSucceeds (Conn c) ->
  net.outbound (Conn (snd (exchange c m))) =
  net.outbound (Conn c) ++ [(ToBytes (stamped (transactionIDs c) m), raddr c)].
Proof.
  intros Hw. unfold exchange. cbn [snd].
  rewrite sendReceive_set_transactionIDs. cbn [snd].
  rewrite sendReceive_written by exact Hw. reflexivity.
Qed.

Lemma stamped_TransactionID (ids : list TransactionID) (m : Message) :
  TransactionID_ (stamped ids m) = hd (TransactionID_ m) ids.
Proof. destruct ids; reflexivity. Qed.

Lemma stamped_Options (ids : list TransactionID) (m : Message) :
  Options (stamped ids m) = Options m.
Proof. destruct ids; reflexivity. Qed.

Lemma stamped_MessageType (ids : list TransactionID) (m : Message) :
  MessageType_ (stamped ids m) = MessageType_ m.
Proof. destruct ids; reflexivity. Qed.

Lemma solicit_onlyNetwork (c : Client) (given : option Message) :
  onlyNetwork c (snd (solicit c given)).
Proof.
  destruct (match given with
            | None => NewSolicit (hardwareAddr c) [WithClientID (duid c)]
            | Some m => inl m
            end) as [m0|e] eqn:Hb.
  - rewrite (solicit_exchange _ _ Hb). apply exchange_onlyNetwork.
  - unfold solicit. rewrite Hb. apply onlyNetwork_refl.
Qed.

Lemma request_onlyNetwork (c : Client) (adv : Message) :
  onlyNetwork c (snd (request c adv)).
Proof.
  destruct (NewRequestFromAdvertise (Some adv) [WithClientID (duid c)])
    as [r0|e] eqn:Hb.
  - rewrite (request_exchange _ _ Hb). apply exchange_onlyNetwork.
  - unfold request. rewrite Hb. apply onlyNetwork_refl.
Qed.

Lemma Release_onlyNetwork (c : Client) :
  onlyNetwork c (snd (Release c)).
Proof.
  destruct (NewRequestFromAdvertise (advertise c) [WithClientID (duid c)])
    as [r0|e] eqn:Hb.
  - rewrite (Release_exchange _ Hb). apply exchange_onlyNetwork.
  - unfold Release. rewrite Hb. apply onlyNetwork_refl.
Qed.

End Methods.

(** ** [ObtainOrRenew] *)

Section ObtainOrRenew.

Context {codec : Codec}.

Lemma onlyNetwork_cfg (c c' : Client) : onlyNetwork c c' -> cfg c' = cfg c.
Proof. intros H. rewrite H. reflexivity. Qed.

Lemma onlyNetwork_advertise (c c' : Client) :
  onlyNetwork c c' -> advertise c' = advertise c.
Proof. intros H. rewrite H. reflexivity. Qed.


Lemma onlyNetwork_duid (c c' : Client) : onlyNetwork c c' -> duid c' = duid c.
Proof. intros H. rewrite H. reflexivity. Qed.

(** [solicit] does not look at the recorded error, [request] neither at
    it nor at the retained Advertise. *)
Lemma solicit_set_err (c : Client) (x : option error) (given : option Message) :
  solicit (set_err c x) given =
  (fst (solicit c given), set_err (snd (solicit c given)) x).
Proof.
  unfold solicit. cbn [set_err hardwareAddr duid transactionIDs].
  destruct (match given with
            | None => NewSolicit (hardwareAddr c) [WithClientID (duid c)]
            | Some m => inl m
            end) as [m0|e]; [|reflexivity].
  destruct (transactionIDs c) as [|id rest].
  - fold (set_err c x). rewrite sendReceive_set_err.
    destruct (sendReceive c _ _) as [[adv|e] c']; reflexivity.
  - change (set_transactionIDs (set_err c x) rest)
      with (set_err (set_transactionIDs c rest) x).
    rewrite sendReceive_set_err.
    destruct (sendReceive (set_transactionIDs c rest) _ _) as [[adv|e] c']; reflexivity.
Qed.

Lemma request_set_err (c : Client) (x : option error) (adv : Message) :
  request (set_err c x) adv =
  (fst (request c adv), set_err (snd (request c adv)) x).
Proof.
  unfold request. cbn [set_err duid transactionIDs].
  destruct (NewRequestFromAdvertise _ _) as [r0|e]; [|reflexivity].
  destruct (transactionIDs c) as [|id rest].
  - fold (set_err c x). rewrite sendReceive_set_err.
    destruct (sendReceive c _ _) as [[rep|e] c']; reflexivity.
  - change (set_transactionIDs (set_err c x) rest)
      with (set_err (set_transactionIDs c rest) x).
    rewrite sendReceive_set_err.
    destruct (sendReceive (set_transactionIDs c rest) _ _) as [[rep|e] c']; reflexivity.
Qed.

Lemma request_set_advertise (c : Client) (x : option Message) (adv : Message) :
  request (set_advertise c x) adv =
  (fst (request c adv), set_advertise (snd (request c adv)) x).
Proof.
  unfold request. cbn [set_advertise duid transactionIDs].
  destruct (NewRequestFromAdvertise _ _) as [r0|e]; [|reflexivity].
  destruct (transactionIDs c) as [|id rest].
  - fold (set_advertise c x). rewrite sendReceive_set_advertise.
    destruct (sendReceive c _ _) as [[rep|e] c']; reflexivity.
  - change (set_transactionIDs (set_advertise c x) rest)
      with (set_advertise (set_transactionIDs c rest) x).
    rewrite sendReceive_set_advertise.
    destruct (sendReceive (set_transactionIDs c rest) _ _) as [[rep|e] c']; reflexivity.
Qed.

(** The three ways through [ObtainOrRenew]. *)
Lemma ObtainOrRenew_solicit_failed (c c1 : Client) (sent : option Message)
    (e : error) :
  solicit c None = (inr (sent, e), c1) ->
  ObtainOrRenew c = (true, set_err c1 (Some e)).
Proof.
  intros Hs. unfold ObtainOrRenew. rewrite solicit_set_err, Hs. reflexivity.
Qed.

Lemma ObtainOrRenew_request_failed (c c1 c2 : Client) (sol adv : Message)
    (sent : option Message) (e : error) :
  solicit c None = (inl (sol, adv), c1) ->
  request c1 adv = (inr (sent, e), c2) ->
  ObtainOrRenew c = (true, set_err (set_advertise c2 (Some adv)) (Some e)).
Proof.
  intros Hs Hr. unfold ObtainOrRenew. rewrite solicit_set_err, Hs. cbn [fst snd].
  rewrite request_set_advertise, request_set_err, Hr. reflexivity.
Qed.

Lemma ObtainOrRenew_succeeded (c c1 c2 : Client) (sol adv req reply : Message) :
  solicit c None = (inl (sol, adv), c1) ->
  request c1 adv = (inl (req, reply), c2) ->
  ObtainOrRenew c =
  (true,
   set_cfg (set_timeNow (set_err (set_advertise c2 (Some adv)) None)
              (snd (configFromReply (timeNow c2) reply)))
     (fst (configFromReply (timeNow c2) reply))).
Proof.
  intros Hs Hr. unfold ObtainOrRenew. rewrite solicit_set_err, Hs. cbn [fst snd].
  rewrite request_set_advertise, request_set_err, Hr. cbn [fst snd set_advertise set_err timeNow].
  destruct (configFromReply (timeNow c2) reply) as [newCfg k]. reflexivity.
Qed.


End ObtainOrRenew.

(** C7.  When [ObtainOrRenew] fails, in the solicit step or in the request
    step, the configuration that the client holds is the one it held
    before, whole: [Config()] returns the same value before and after the
    call; and [Err()] returns the error of the step that failed. *)
Theorem ObtainOrRenew_failure_keeps_Config {codec : Codec} (c : Client) :
  (forall (sent : option Message) (e : error) (c1 : Client),
     solicit c None = (inr (sent, e), c1) ->
     Config' (snd (ObtainOrRenew c)) = Config' c /\
     Err (snd (ObtainOrRenew c)) = Some e) /\
  (forall (sol adv : Message) (c1 : Client) (sent : option Message) (e : error)
          (c2 : Client),
     solicit c None = (inl (sol, adv), c1) ->
     request c1 adv = (inr (sent, e), c2) ->
     Config' (snd (ObtainOrRenew c)) = Config' c /\
     Err (snd (ObtainOrRenew c)) = Some e).
Proof.
  split.
  - intros sent e c1 Hs.
    rewrite (ObtainOrRenew_solicit_failed _ Hs). cbn [snd]. split; [|reflexivity].
    pose proof (solicit_onlyNetwork c None) as Hf. rewrite Hs in Hf. cbn [snd] in Hf.
    unfold Config'. cbn [set_err cfg]. apply (onlyNetwork_cfg Hf).
  - intros sol adv c1 sent e c2 Hs Hr.
    rewrite (ObtainOrRenew_request_failed _ Hs Hr). cbn [snd]. split; [|reflexivity].
    pose proof (solicit_onlyNetwork c None) as Hf1. rewrite Hs in Hf1. cbn [snd] in Hf1.
    pose proof (request_onlyNetwork c1 adv) as Hf2. rewrite Hr in Hf2. cbn [snd] in Hf2.
    unfold Config'. cbn [set_err set_advertise cfg].
    rewrite (onlyNetwork_cfg Hf2). apply (onlyNetwork_cfg Hf1).
Qed.


(** A client that holds a configuration and whose Solicit meets silence;
    and one whose Solicit is answered and whose Request meets silence. *)
Lemma ObtainOrRenew_failure_keeps_Config_witness :
  let held := {| RenewAfter := 1800 * time.Second;
                 Prefixes := [{| net.IPNet_IP := [x20; x01; x0d; xb8];
                                 net.IPNet_Mask := [xff; xff; xff; xff] |}];
                 DNS := ["2001:db8::53"%string] |} in
  let silent := set_cfg (Fixture.client [] [] 0) held in
  let halfway := set_cfg (Fixture.client [Fixture.dgram [x02; x00; x11; x11]]
                            [Fixture.xid1; Fixture.xid2] 0) held in
  (Config' (snd (ObtainOrRenew (codec := Fixture.codec) silent)) = held /\
   Err (snd (ObtainOrRenew (codec := Fixture.codec) silent)) = Some ErrDeadlineExceeded) /\
  (Config' (snd (ObtainOrRenew (codec := Fixture.codec) halfway)) = held /\
   Err (snd (ObtainOrRenew (codec := Fixture.codec) halfway)) = Some ErrDeadlineExceeded).
Proof.
  intros held silent halfway. split.
  - eapply (proj1 (@ObtainOrRenew_failure_keeps_Config Fixture.codec silent)).
    vm_compute. reflexivity.
  - eapply (proj2 (@ObtainOrRenew_failure_keeps_Config Fixture.codec halfway)).
    + vm_compute. reflexivity.
    + vm_compute. reflexivity.
Defined.

(** ** The queue of deterministic identifiers *)

Section TransactionIDs.

Context {codec : Codec}.



End TransactionIDs.



(** ** [Release] without a retained Advertise *)

(** A new client retains no Advertise, holds the zero configuration and no
    error, and has the identifiers of its configuration in its queue. *)
Lemma NewClient_fresh {host : Host} (cfg0 : ClientConfig) (c : Client) :
  NewClient cfg0 = inl c ->
  advertise c = None /\ cfg c = zeroConfig /\ err c = None /\
  transactionIDs c = CfgTransactionIDs cfg0.
Proof.
  unfold NewClient.
  destruct (InterfaceByName _) as [iface|e]; [|discriminate].
  destruct (CfgLocalAddr cfg0) as [laddr|];
    [|destruct (GetLinkLocalAddr _) as [ll|e]; [|discriminate]].
  all: destruct (match CfgDUID cfg0 with Some b => DuidFromBytes b | None => _ end)
         as [d|e]; [|discriminate].
  all: destruct (match CfgConn cfg0 with Some k => inl k | None => _ end)
         as [k|e]; [|discriminate].
  all: intros H; inversion H; subst; cbn; auto.
Qed.

(** Only [ObtainOrRenew] retains an Advertise, and only after a Solicit
    that was answered. *)
Lemma ObtainOrRenew_solicit_failed_advertise {codec : Codec} (c c1 : Client)
    (sent : option Message) (e : error) :
  solicit c None = (inr (sent, e), c1) ->
  advertise (snd (ObtainOrRenew c)) = advertise c.
Proof.
  intros Hs. rewrite (ObtainOrRenew_solicit_failed _ Hs). cbn [snd set_err advertise].
  pose proof (solicit_onlyNetwork c None) as Hf. rewrite Hs in Hf. cbn [snd] in Hf.
  apply (onlyNetwork_advertise Hf).
Qed.

(** C9.  On a client that has retained no Advertise, [Release] fails with
    the error with which the library refuses to build a message from an
    absent Advertise (this is the no-active-lease failure), returns neither
    a sent message nor a reply, and leaves the client as it was: nothing is
    written to the connection, nothing is read from it, no identifier is
    taken. *)
Theorem Release_without_advertise {codec : Codec} (c : Client) (e : error) :
  advertise c = None ->
  NewRequestFromAdvertise None [WithClientID (duid c)] = inr e ->
  Release c = (inr (None, e), c) /\
  Conn (snd (Release c)) = Conn c.
Proof.
  intros Ha Hn. unfold Release. rewrite Ha, Hn. split; reflexivity.
Qed.

Lemma Release_without_advertise_witness :
  let c := Fixture.client [Fixture.dgram [x07; x00; x11; x11]] [Fixture.xid1] 0 in
  Release (codec := Fixture.codec) c
  = (inr (None, ErrLib "ADVERTISE cannot be nil"), c) /\
  Conn (snd (Release (codec := Fixture.codec) c)) = Conn c.
Proof.
  intros c.
  apply (@Release_without_advertise Fixture.codec c (ErrLib "ADVERTISE cannot be nil"));
    reflexivity.
Defined.

(** ** The IA_PD option of the Solicit *)

Lemma IAPD_app (a b : list Option) : IAPD (a ++ b) = IAPD a ++ IAPD b.
Proof.
  induction a as [|o a IH]; [reflexivity|].
  destruct o; cbn [app IAPD]; rewrite IH; reflexivity.
Qed.

(** C10.  Whenever [solicit] has a message to send, the one built by the
    library or the one supplied by the caller, the message that goes out
    has the options of that message followed by one more IA_PD option with
    the IA id bytes 0, 0, 0, 1: the option is added without looking at the
    options already there, so the outgoing message has one IA_PD option
    more than the message had; and these are the bytes written to the
    connection when the write goes through. *)
Theorem solicit_appends_IAPD {codec : Codec} (c : Client) (given : option Message)
    (built : Message) :
  match given with
  | None => NewSolicit (hardwareAddr c) [WithClientID (duid c)]
  | Some m => inl m
  end = inl built ->
  exists sent iapd,
    sentMessage (fst (solicit c given)) = Some sent /\
    IaId iapd = (x00, x00, x00, x01) /\
    Options sent = Options built ++ [IAPDOption iapd] /\
    IAPD (Options sent) = IAPD (Options built) ++ [iapd] /\
    (writeSucceeds (Conn c) ->
     net.outbound (Conn (snd (solicit c given))) =
     net.outbound (Conn c) ++ [(ToBytes sent, raddr c)]).
Proof.
  intros Hb. rewrite (solicit_exchange _ _ Hb).
  exists (stamped (transactionIDs c) (AddOption built (IAPDOption solicitIAPD))),
         solicitIAPD.
  split; [apply exchange_sent|]. split; [reflexivity|].
  rewrite stamped_Options. cbn [AddOption Options].
  split; [reflexivity|]. split; [rewrite IAPD_app; reflexivity|].
  apply exchange_outbound.
Qed.

(** A Solicit of the caller's that asks for a prefix already goes out with
    two IA_PD options. *)
Lemma solicit_appends_IAPD_witness :
  let own := {| IaId := (x00, x00, x00, x07); T1 := 0; T2 := 0; PDOptions := [] |} in
  let given := {| MessageType_ := MessageTypeSolicit;
                  TransactionID_ := Fixture.xid1;
                  Options := [IAPDOption own] |} in
  exists sent iapd,
    sentMessage (fst (solicit (codec := Fixture.codec)
                        (Fixture.client [] [] 0) (Some given))) = Some sent /\
    IaId iapd = (x00, x00, x00, x01) /\
    Options sent = [IAPDOption own; IAPDOption iapd] /\
    IAPD (Options sent) = [own; iapd].
Proof.
  intros own given.
  destruct (@solicit_appends_IAPD Fixture.codec (Fixture.client [] [] 0)
              (Some given) given eq_refl)
    as (sent & iapd & Hs & Hid & Ho & Hpd & _).
  exists sent, iapd. repeat split; assumption.
Defined.

(** ** The configuration read off the Reply *)

Section ConfigFromReply.

Context {codec : Codec}.

Variable now : time.Time.







End ConfigFromReply.






(** * Further properties of the package *)

(** ** [sendReceive]: where its results come from *)

Section ReceiveLoopMore.

Context {codec : Codec}.

Variables (packet : Message) (expected : MessageType).

(** The loop hands back a tail of what it was given. *)
Lemma receiveLoop_suffix (pending : list net.ReadEvent) :
  exists consumed,
    pending = consumed ++ snd (receiveLoop packet expected pending).
Proof.
  induction pending as [|ev pending [consumed IH]].
  - exists []. reflexivity.
  - assert (exists consumed', ev :: pending
              = consumed' ++ snd (receiveLoop packet expected pending)) as Hskip.
    { exists (ev :: consumed). cbn [app]. rewrite <- IH. reflexivity. }
    destruct ev as [payload from|e]; cbn [receiveLoop].
    + destruct (MessageFromBytes _) as [adv|e]; [|exact Hskip].
      destruct (negb _); [exact Hskip|].
      destruct (expected =? MessageTypeNone)%N;
        [exists [net.Datagram payload from]; reflexivity|].
      destruct (MessageType_ adv =? expected)%N;
        [exists [net.Datagram payload from]; reflexivity | exact Hskip].
    + exists [net.ReadError e]. reflexivity.
Qed.

(** The loop sees of a datagram only what fits the buffer. *)
Lemma receiveLoop_sameReceived (l l' : list net.ReadEvent) :
  Forall2 sameReceived l l' ->
  fst (receiveLoop packet expected l) = fst (receiveLoop packet expected l').
Proof.
  induction 1 as [|ev ev' l l' Hev _ IH]; [reflexivity|].
  destruct ev as [p f|e], ev' as [p' f'|e']; cbn [sameReceived] in Hev;
    try contradiction.
  - cbn [receiveLoop]. fold (received p) (received p'). rewrite Hev.
    destruct (MessageFromBytes (received p')) as [adv|e]; [|exact IH].
    destruct (negb _); [exact IH|].
    destruct (expected =? MessageTypeNone)%N; [reflexivity|].
    destruct (MessageType_ adv =? expected)%N; [reflexivity | exact IH].
  - subst. reflexivity.
Qed.

End ReceiveLoopMore.

Section SendReceiveMore.

Context {codec : Codec}.

Lemma WriteTo_failure (conn : net.PacketConn) (b : list byte) (addr : net.UDPAddr)
    (e : error) :
  hd None (net.writeResults conn) = Some e ->
  net.WriteTo conn b addr = (Some e, unwritten conn).
Proof.
  unfold net.WriteTo, unwritten.
  destruct (net.writeResults conn) as [|[e'|] rest]; cbn; intros H;
    [discriminate | | discriminate].
  inversion H; subst. reflexivity.
Qed.

Lemma sendReceive_unwritten (c : Client) (packet : Message) (t : MessageType)
    (e : error) :
  hd None (net.writeResults (Conn c)) = Some e ->
  sendReceive c (Some packet) t = (inr e, set_Conn c (unwritten (Conn c))).
Proof.
  intros Hw. unfold sendReceive, net.SetWriteDeadline.
  rewrite (WriteTo_failure _ _ _ Hw). reflexivity.
Qed.

End SendReceiveMore.

(** X1.  A message that [sendReceive] returns was decoded from a datagram
    of the connection that matches the packet; every event read before it
    was a datagram passed over; the packet was written once; what the
    connection had behind the datagram is still unread. *)
Theorem sendReceive_reply_origin {codec : Codec} (c c' : Client)
    (packet : option Message) (expectedType : MessageType) (reply : Message) :
  sendReceive c packet expectedType = (inl reply, c') ->
  exists sent pre payload from post,
    packet = Some sent /\
    writeSucceeds (Conn c) /\
    net.inbound (Conn c) = pre ++ net.Datagram payload from :: post /\
    Forall (discarded sent (inferExpectedType sent expectedType)) pre /\
    matching sent (inferExpectedType sent expectedType) payload reply /\
    c' = set_Conn c (with_inbound (written (Conn c) (ToBytes sent) (raddr c)) post).
Proof.
  intros H.
  destruct (sendReceive_inl _ _ _ H) as (sent & post & -> & Hw & Hloop & ->).
  destruct (receiveLoop_inl _ _ _ Hloop) as (pre & payload & from & Hin & Hpre & Hm).
  exists sent, pre, payload, from, post. repeat split; try assumption; apply Hm.
Qed.

Lemma sendReceive_reply_origin_witness :
  exists sent pre payload from post,
    Some {| MessageType_ := MessageTypeRequest; TransactionID_ := Fixture.xid2;
            Options := [] |} = Some sent /\
    writeSucceeds (Fixture.conn [Fixture.dgram [x07; x00; x11; x11];
                                 Fixture.dgram [x07; x00; x22; x22];
                                 Fixture.dgram [x07; x00; x22; x22]]) /\
    [Fixture.dgram [x07; x00; x11; x11];
     Fixture.dgram [x07; x00; x22; x22];
     Fixture.dgram [x07; x00; x22; x22]] = pre ++ net.Datagram payload from :: post /\
    post = [Fixture.dgram [x07; x00; x22; x22]].
Proof.
  destruct (@sendReceive_reply_origin Fixture.codec
              (Fixture.client [Fixture.dgram [x07; x00; x11; x11];
                               Fixture.dgram [x07; x00; x22; x22];
                               Fixture.dgram [x07; x00; x22; x22]] [] 0)
              (snd (sendReceive (codec := Fixture.codec)
                      (Fixture.client [Fixture.dgram [x07; x00; x11; x11];
                                       Fixture.dgram [x07; x00; x22; x22];
                                       Fixture.dgram [x07; x00; x22; x22]] [] 0)
                      (Some {| MessageType_ := MessageTypeRequest;
                               TransactionID_ := Fixture.xid2; Options := [] |})
                      MessageTypeNone))
              (Some {| MessageType_ := MessageTypeRequest;
                       TransactionID_ := Fixture.xid2; Options := [] |})
              MessageTypeNone
              {| MessageType_ := MessageTypeReply; TransactionID_ := Fixture.xid2;
                 Options := [] |})
    as (sent & pre & payload & from & post & Hs & Hw & Hin & Hpre & Hm & Hc).
  - vm_compute. reflexivity.
  - exists sent, pre, payload, from, post.
    split; [exact Hs|]. split; [exact Hw|]. split; [exact Hin|].
    apply (f_equal (fun k => net.inbound (Conn k))) in Hc.
    vm_compute in Hc. subst post. reflexivity.
Defined.

(** X2.  An error that [sendReceive] returns for a packet is the error of
    the failed write, with nothing read; or, the write done, the error of
    the first read that failed, or of the expired deadline, after nothing
    but datagrams passed over. *)
Theorem sendReceive_error_origin {codec : Codec} (c c' : Client)
    (packet : Message) (expectedType : MessageType) (e : error) :
  sendReceive c (Some packet) expectedType = (inr e, c') ->
  (hd None (net.writeResults (Conn c)) = Some e /\
   c' = set_Conn c (unwritten (Conn c))) \/
  (writeSucceeds (Conn c) /\
   exists pre post,
     Forall (discarded packet (inferExpectedType packet expectedType)) pre /\
     c' = set_Conn c (with_inbound (written (Conn c) (ToBytes packet) (raddr c)) post) /\
     ((net.inbound (Conn c) = pre /\ post = [] /\ e = ErrDeadlineExceeded) \/
      net.inbound (Conn c) = pre ++ net.ReadError e :: post)).
Proof.
  destruct (hd None (net.writeResults (Conn c))) as [e'|] eqn:Hw.
  - rewrite (sendReceive_unwritten _ _ _ Hw). intros H. inversion H; subst.
    left. split; reflexivity.
  - rewrite sendReceive_written by exact Hw. cbv zeta.
    destruct (receiveLoop _ _ _) as [res post] eqn:Hloop. cbn [fst snd].
    intros H. inversion H; subst.
    destruct (receiveLoop_inr _ _ _ Hloop) as (pre & Hpre & Hcase).
    right. split; [exact Hw|]. exists pre, post.
    split; [exact Hpre|]. split; [reflexivity | exact Hcase].
Qed.

(** Another transaction, then a failed read, then a matching Advertise
    that is never read. *)
Lemma sendReceive_error_origin_witness :
  let c := Fixture.client [Fixture.dgram [x02; x00; x22; x22];
                           net.ReadError (ErrNet "network is down");
                           Fixture.dgram [x02; x00; x11; x11]] [] 0 in
  let solicit1 := {| MessageType_ := MessageTypeSolicit;
                     TransactionID_ := Fixture.xid1; Options := [] |} in
  exists pre post,
    Forall (discarded (codec := Fixture.codec) solicit1
              (inferExpectedType solicit1 MessageTypeNone)) pre /\
    net.inbound (Conn c) = pre ++ net.ReadError (ErrNet "network is down") :: post /\
    net.inbound (Conn (snd (sendReceive (codec := Fixture.codec) c (Some solicit1)
                              MessageTypeNone))) = post.
Proof.
  intros c solicit1.
  destruct (@sendReceive_error_origin Fixture.codec c
              (snd (sendReceive (codec := Fixture.codec) c (Some solicit1)
                      MessageTypeNone))
              solicit1 MessageTypeNone (ErrNet "network is down"))
    as [[Hw _] | (_ & pre & post & Hpre & Hc & [(_ & _ & He) | Hin])].
  - vm_compute. reflexivity.
  - vm_compute in Hw. discriminate.
  - discriminate.
  - exists pre, post. split; [exact Hpre|]. split; [exact Hin|].
    rewrite Hc. reflexivity.
Defined.

(** X3.  Without a packet [sendReceive] fails and leaves the client as it
    is.  When the write fails, [sendReceive] fails with the error of the
    write: nothing is read from the connection and nothing is added to what
    was written. *)
Theorem sendReceive_fails_before_reading {codec : Codec} (c : Client)
    (expectedType : MessageType) :
  sendReceive c None expectedType = (inr ErrNilPacket, c) /\
  (forall (packet : Message) (e : error),
     hd None (net.writeResults (Conn c)) = Some e ->
     fst (sendReceive c (Some packet) expectedType) = inr e /\
     net.inbound (Conn (snd (sendReceive c (Some packet) expectedType)))
     = net.inbound (Conn c) /\
     net.outbound (Conn (snd (sendReceive c (Some packet) expectedType)))
     = net.outbound (Conn c)).
Proof.
  split; [reflexivity|].
  intros packet e Hw. rewrite (sendReceive_unwritten _ _ _ Hw).
  repeat split.
Qed.

Lemma sendReceive_fails_before_reading_witness :
  let c := set_Conn (Fixture.client [] [] 0)
             {| net.inbound := [Fixture.dgram [x02; x00; x11; x11]];
                net.writeResults := [Some (ErrNet "no route to host")];
                net.outbound := [] |} in
  let solicit1 := {| MessageType_ := MessageTypeSolicit;
                     TransactionID_ := Fixture.xid1; Options := [] |} in
  fst (sendReceive (codec := Fixture.codec) c (Some solicit1) MessageTypeNone)
  = inr (ErrNet "no route to host") /\
  net.inbound (Conn (snd (sendReceive (codec := Fixture.codec) c (Some solicit1)
                            MessageTypeNone)))
  = [Fixture.dgram [x02; x00; x11; x11]] /\
  net.outbound (Conn (snd (sendReceive (codec := Fixture.codec) c (Some solicit1)
                             MessageTypeNone))) = [].
Proof.
  intros c solicit1.
  apply (proj2 (@sendReceive_fails_before_reading Fixture.codec c MessageTypeNone)
           solicit1 (ErrNet "no route to host")).
  reflexivity.
Defined.

(** X4.  Whatever the packet and the traffic, [sendReceive] changes nothing
    of the client but its connection; what is left to read is a tail of
    what there was to read; and at most one datagram is written: the bytes
    of the packet, to the remote address of the client. *)
Theorem sendReceive_touches_only_connection {codec : Codec} (c : Client)
    (packet : option Message) (expectedType : MessageType) :
  snd (sendReceive c packet expectedType)
  = set_Conn c (Conn (snd (sendReceive c packet expectedType))) /\
  (exists consumed,
     net.inbound (Conn c)
     = consumed ++ net.inbound (Conn (snd (sendReceive c packet expectedType)))) /\
  (net.outbound (Conn (snd (sendReceive c packet expectedType)))
   = net.outbound (Conn c) \/
   exists sent,
     packet = Some sent /\
     net.outbound (Conn (snd (sendReceive c packet expectedType)))
     = net.outbound (Conn c) ++ [(ToBytes sent, raddr c)]).
Proof.
  split; [apply sendReceive_frame|].
  destruct packet as [sent|].
  - destruct (hd None (net.writeResults (Conn c))) as [e|] eqn:Hw.
    + rewrite (sendReceive_unwritten _ _ _ Hw). cbn [snd set_Conn Conn unwritten].
      split; [exists []; reflexivity | left; reflexivity].
    + rewrite sendReceive_written by exact Hw. cbv zeta.
      cbn [snd set_Conn Conn with_inbound written net.inbound net.outbound].
      split; [apply receiveLoop_suffix|].
      right. exists sent. split; reflexivity.
  - cbn [sendReceive snd]. split; [exists []; reflexivity | left; reflexivity].
Qed.

(** X5.  [sendReceive] reads a datagram into a buffer of 8192 bytes: over
    two streams of events that agree read by read, up to the senders and to
    the bytes of the datagrams beyond the first 8192, it returns the same
    result. *)
Theorem sendReceive_ignores_bytes_beyond_buffer {codec : Codec} (c : Client)
    (packet : option Message) (expectedType : MessageType)
    (events events' : list net.ReadEvent) :
  Forall2 sameReceived events events' ->
  fst (sendReceive (delivering c events) packet expectedType)
  = fst (sendReceive (delivering c events') packet expectedType).
Proof.
  intros Hsame. destruct packet as [sent|]; [|reflexivity].
  unfold sendReceive, net.SetWriteDeadline, net.SetReadDeadline, net.WriteTo.
  cbn [delivering set_Conn Conn with_inbound net.writeResults net.inbound
       net.outbound raddr].
  destruct (net.writeResults (Conn c)) as [|[e|] rest]; cbn [net.inbound];
    try reflexivity.
  - pose proof (receiveLoop_sameReceived sent (inferExpectedType sent expectedType)
                  Hsame) as H.
    destruct (receiveLoop _ _ events) as [r1 l1].
    destruct (receiveLoop _ _ events') as [r2 l2]. exact H.
  - pose proof (receiveLoop_sameReceived sent (inferExpectedType sent expectedType)
                  Hsame) as H.
    destruct (receiveLoop _ _ events) as [r1 l1].
    destruct (receiveLoop _ _ events') as [r2 l2]. exact H.
Qed.

(** An Advertise followed by 8189 more bytes, and the same with another
    last byte: the 8193rd byte of the datagram. *)
Lemma sendReceive_ignores_bytes_beyond_buffer_witness :
  let solicit1 := {| MessageType_ := MessageTypeSolicit;
                     TransactionID_ := Fixture.xid1; Options := [] |} in
  let long (last : byte) :=
    [x02; x00; x11; x11] ++ repeat x00 (N.to_nat 8188) ++ [last] in
  fst (sendReceive (codec := Fixture.codec)
         (delivering (Fixture.client [] [] 0) [Fixture.dgram (long x01)])
         (Some solicit1) MessageTypeNone)
  = fst (sendReceive (codec := Fixture.codec)
           (delivering (Fixture.client [] [] 0) [Fixture.dgram (long xff)])
           (Some solicit1) MessageTypeNone).
Proof.
  intros solicit1 long.
  apply (@sendReceive_ignores_bytes_beyond_buffer Fixture.codec).
  constructor; [|constructor]. vm_compute. reflexivity.
Defined.

(** ** The exchange methods: what they send and what they take *)

Section ExchangeMore.

Context {codec : Codec}.

Lemma exchange_reply_matching (c c' : Client) (m sent reply : Message) :
  exchange c m = (inl (sent, reply), c') ->
  sent = stamped (transactionIDs c) m /\
  exists payload,
    matching sent (inferExpectedType sent MessageTypeNone) payload reply.
Proof.
  intros H. unfold exchange in H.
  destruct (sendReceive _ _ _) as [[r|e] c''] eqn:Hsr; cbn [fst snd] in H;
    [|discriminate].
  inversion H; subst.
  destruct (sendReceive_inl _ _ _ Hsr) as (s & rest & Hs & _ & Hloop & _).
  inversion Hs; subst s.
  destruct (receiveLoop_inl _ _ _ Hloop) as (pre & payload & from & _ & _ & Hm).
  split; [reflexivity|]. exists payload. exact Hm.
Qed.


End ExchangeMore.

(** X6.  When the message that [solicit] stamps and sends is a Solicit
    (the one of the library, or the caller's), the message that [solicit]
    returns as the answer is an Advertise of the transaction of the message
    sent, and the message sent is still a Solicit. *)
Theorem solicit_returns_Advertise {codec : Codec} (c c' : Client)
    (given : option Message) (built sent adv : Message) :
  match given with
  | None => NewSolicit (hardwareAddr c) [WithClientID (duid c)]
  | Some m => inl m
  end = inl built ->
  MessageType_ built = MessageTypeSolicit ->
  solicit c given = (inl (sent, adv), c') ->
  MessageType_ sent = MessageTypeSolicit /\
  MessageType_ adv = MessageTypeAdvertise /\
  TransactionID_ adv = TransactionID_ sent.
Proof.
  intros Hb Ht Hs. rewrite (solicit_exchange _ _ Hb) in Hs.
  destruct (exchange_reply_matching Hs) as (Hsent & payload & _ & Hx & Hty).
  assert (MessageType_ sent = MessageTypeSolicit) as Hst.
  { rewrite Hsent, stamped_MessageType. exact Ht. }
  split; [exact Hst|]. split; [|exact Hx].
  unfold inferExpectedType, Type_ in Hty. rewrite Hst in Hty. cbn in Hty.
  destruct Hty as [Hty|Hty]; [discriminate | exact Hty].
Qed.

Lemma solicit_returns_Advertise_witness :
  let c := Fixture.client [Fixture.dgram [x07; x00; x11; x11];
                           Fixture.dgram [x02; x00; x11; x11]] [Fixture.xid1] 0 in
  let sent := {| MessageType_ := MessageTypeSolicit; TransactionID_ := Fixture.xid1;
                 Options := [ClientIDOption Fixture.duid0; IAPDOption solicitIAPD] |} in
  let adv := {| MessageType_ := MessageTypeAdvertise; TransactionID_ := Fixture.xid1;
                Options := [] |} in
  fst (solicit (codec := Fixture.codec) c None) = inl (sent, adv) /\
  MessageType_ sent = MessageTypeSolicit /\
  MessageType_ adv = MessageTypeAdvertise /\
  TransactionID_ adv = TransactionID_ sent.
Proof.
  intros c sent adv. split; [vm_compute; reflexivity|].
  apply (@solicit_returns_Advertise Fixture.codec c
           (snd (solicit (codec := Fixture.codec) c None)) None
           {| MessageType_ := MessageTypeSolicit; TransactionID_ := Fixture.generated;
              Options := [ClientIDOption Fixture.duid0] |} sent adv).
  - reflexivity.
  - reflexivity.
  - vm_compute. reflexivity.
Defined.

(** X7.  When the library builds a Request from the Advertise, the message
    that [request] returns as the answer is a Reply of the transaction of
    the Request sent. *)
Theorem request_returns_Reply {codec : Codec} (c c' : Client)
    (adv built sent reply : Message) :
  NewRequestFromAdvertise (Some adv) [WithClientID (duid c)] = inl built ->
  MessageType_ built = MessageTypeRequest ->
  request c adv = (inl (sent, reply), c') ->
  MessageType_ sent = MessageTypeRequest /\
  MessageType_ reply = MessageTypeReply /\
  TransactionID_ reply = TransactionID_ sent.
Proof.
  intros Hb Ht Hr. rewrite (request_exchange _ _ Hb) in Hr.
  destruct (exchange_reply_matching Hr) as (Hsent & payload & _ & Hx & Hty).
  assert (MessageType_ sent = MessageTypeRequest) as Hst.
  { rewrite Hsent, stamped_MessageType.
    destruct (OneIAPD (Options adv)); exact Ht. }
  split; [exact Hst|]. split; [|exact Hx].
  unfold inferExpectedType, Type_ in Hty. rewrite Hst in Hty. cbn in Hty.
  destruct Hty as [Hty|Hty]; [discriminate | exact Hty].
Qed.

Lemma request_returns_Reply_witness :
  let c := Fixture.client [Fixture.dgram [x02; x00; x22; x22];
                           Fixture.dgram [x07; x00; x22; x22]] [Fixture.xid2] 0 in
  let adv := {| MessageType_ := MessageTypeAdvertise; TransactionID_ := Fixture.xid1;
                Options := [] |} in
  let sent := {| MessageType_ := MessageTypeRequest; TransactionID_ := Fixture.xid2;
                 Options := [ClientIDOption Fixture.duid0] |} in
  let reply := {| MessageType_ := MessageTypeReply; TransactionID_ := Fixture.xid2;
                  Options := [] |} in
  fst (request (codec := Fixture.codec) c adv) = inl (sent, reply) /\
  MessageType_ sent = MessageTypeRequest /\
  MessageType_ reply = MessageTypeReply /\
  TransactionID_ reply = TransactionID_ sent.
Proof.
  intros c adv sent reply. split; [vm_compute; reflexivity|].
  apply (@request_returns_Reply Fixture.codec c
           (snd (request (codec := Fixture.codec) c adv)) adv
           {| MessageType_ := MessageTypeRequest; TransactionID_ := Fixture.generated;
              Options := [ClientIDOption Fixture.duid0] |} sent reply).
  - reflexivity.
  - reflexivity.
  - vm_compute. reflexivity.
Defined.





(** X10.  [solicit], [request] and [Release] never change the
    configuration that the client holds, the error it has recorded, the
    Advertise it retains or its clock: in particular a Solicit answered
    through [solicit] alone retains no Advertise. *)
Theorem exchange_methods_keep_session {codec : Codec} (c : Client)
    (given : option Message) (adv : Message) :
  (Config' (snd (solicit c given)) = Config' c /\
   Err (snd (solicit c given)) = Err c /\
   advertise (snd (solicit c given)) = advertise c /\
   timeNow (snd (solicit c given)) = timeNow c) /\
  (Config' (snd (request c adv)) = Config' c /\
   Err (snd (request c adv)) = Err c /\
   advertise (snd (request c adv)) = advertise c /\
   timeNow (snd (request c adv)) = timeNow c) /\
  (Config' (snd (Release c)) = Config' c /\
   Err (snd (Release c)) = Err c /\
   advertise (snd (Release c)) = advertise c /\
   timeNow (snd (Release c)) = timeNow c).
Proof.
  assert (forall c', onlyNetwork c c' ->
            Config' c' = Config' c /\ Err c' = Err c /\
            advertise c' = advertise c /\ timeNow c' = timeNow c) as Hframe.
  { intros c' H. rewrite H. repeat split. }
  split; [|split]; apply Hframe.
  - apply solicit_onlyNetwork.
  - apply request_onlyNetwork.
  - apply Release_onlyNetwork.
Qed.

(** X11.  When the library fails to build the message, the method returns
    that error with neither message and leaves the client as it is: no
    identifier is taken from the queue and the connection is not used.
    [ObtainOrRenew] then records the error of the Solicit that could not be
    built and changes nothing else. *)
Theorem build_failure_uses_nothing {codec : Codec} (c : Client) (e : error) :
  (NewSolicit (hardwareAddr c) [WithClientID (duid c)] = inr e ->
   solicit c None = (inr (None, e), c) /\
   ObtainOrRenew c = (true, set_err c (Some e))) /\
  (forall adv : Message,
     NewRequestFromAdvertise (Some adv) [WithClientID (duid c)] = inr e ->
     request c adv = (inr (None, e), c)) /\
  (NewRequestFromAdvertise (advertise c) [WithClientID (duid c)] = inr e ->
   Release c = (inr (None, e), c)).
Proof.
  split; [|split].
  - intros Hb.
    assert (solicit c None = (inr (None, e), c)) as Hs
      by (unfold solicit; rewrite Hb; reflexivity).
    split; [exact Hs|]. apply (ObtainOrRenew_solicit_failed _ Hs).
  - intros adv Hb. unfold request. rewrite Hb. reflexivity.
  - intros Hb. unfold Release. rewrite Hb. reflexivity.
Qed.

(** A retained message that is not an Advertise: the library refuses to
    build the Release, and the identifier stays in the queue. *)
Lemma build_failure_uses_nothing_witness :
  let c := set_advertise
             (Fixture.client [Fixture.dgram [x07; x00; x11; x11]] [Fixture.xid1] 0)
             (Some {| MessageType_ := MessageTypeReply;
                      TransactionID_ := Fixture.xid1; Options := [] |}) in
  Release (codec := Fixture.codec) c
  = (inr (None, ErrLib "The passed ADVERTISE must have ADVERTISE type set"), c).
Proof.
  intros c.
  apply (proj2 (proj2 (@build_failure_uses_nothing Fixture.codec c
                         (ErrLib "The passed ADVERTISE must have ADVERTISE type set")))).
  reflexivity.
Defined.

(** X12.  [ObtainOrRenew] retains the Advertise as soon as the Solicit is
    answered, whether the Request that follows succeeds or fails; when the
    Solicit fails, the Advertise retained before stays. *)
Theorem ObtainOrRenew_retains_Advertise {codec : Codec} (c : Client) :
  (forall (sent : option Message) (e : error) (c1 : Client),
     solicit c None = (inr (sent, e), c1) ->
     advertise (snd (ObtainOrRenew c)) = advertise c) /\
  (forall (sol adv : Message) (c1 : Client),
     solicit c None = (inl (sol, adv), c1) ->
     advertise (snd (ObtainOrRenew c)) = Some adv).
Proof.
  split.
  - intros sent e c1 Hs. rewrite (ObtainOrRenew_solicit_failed _ Hs).
    cbn [snd set_err advertise].
    pose proof (solicit_onlyNetwork c None) as Hf. rewrite Hs in Hf. cbn [snd] in Hf.
    apply (onlyNetwork_advertise Hf).
  - intros sol adv c1 Hs.
    destruct (request c1 adv) as [[[req reply]|[sent e]] c2] eqn:Hr.
    + rewrite (ObtainOrRenew_succeeded _ Hs Hr). reflexivity.
    + rewrite (ObtainOrRenew_request_failed _ Hs Hr). reflexivity.
Qed.

(** An answered Solicit and a Request that meets silence: the Advertise is
    retained, and a Release can be built from it. *)
Lemma ObtainOrRenew_retains_Advertise_witness :
  let c := Fixture.client [Fixture.dgram [x02; x00; x11; x11]]
             [Fixture.xid1; Fixture.xid2] 0 in
  Err (snd (ObtainOrRenew (codec := Fixture.codec) c)) = Some ErrDeadlineExceeded /\
  advertise (snd (ObtainOrRenew (codec := Fixture.codec) c))
  = Some {| MessageType_ := MessageTypeAdvertise; TransactionID_ := Fixture.xid1;
            Options := [] |}.
Proof.
  intros c. split; [vm_compute; reflexivity|].
  eapply (proj2 (@ObtainOrRenew_retains_Advertise Fixture.codec c)).
  vm_compute. reflexivity.
Defined.

(** ** The configuration of a successful [ObtainOrRenew] *)

Section ConfigMore.

Context {codec : Codec}.











End ConfigMore.








(** ** [ObtainOrRenew] from end to end *)

Section EndToEnd.

Context {codec : Codec}.


End EndToEnd.



(** ** A new client *)

(** X17.  A client that [NewClient] returns has the connection of the
    configuration when one is given, the remote address of the
    configuration or else the multicast address ff02::1:2 with port 547,
    the hardware address of the configuration or else the one of the
    interface, the DUID decoded from the configuration or else a DUID-LLT
    over that same hardware address, the default timeouts, the identifiers
    of the configuration in its queue, the zero configuration, no error
    and no Advertise. *)
Theorem NewClient_result {host : Host} (cfg0 : ClientConfig) (c : Client) :
  NewClient cfg0 = inl c ->
  interfaceName c = CfgInterfaceName cfg0 /\
  (forall conn, CfgConn cfg0 = Some conn -> Conn c = conn) /\
  raddr c = match CfgRemoteAddr cfg0 with
            | Some r => r
            | None => {| net.UDPAddr_IP := AllDHCPRelayAgentsAndServers;
                         net.Port := DefaultServerPort;
                         net.Zone := EmptyString |}
            end /\
  (exists iface,
     InterfaceByName (CfgInterfaceName cfg0) = inl iface /\
     hardwareAddr c = match CfgHardwareAddr cfg0 with
                      | Some a => a
                      | None => IfHardwareAddr iface
                      end) /\
  match CfgDUID cfg0 with
  | Some b => DuidFromBytes b = inl (duid c)
  | None => duid c = {| DuidType := DUID_LLT; HwType := HWTypeEthernet;
                        DuidTime := GetTime; LinkLayerAddr := hardwareAddr c |}
  end /\
  ReadTimeout c = DefaultReadTimeout /\
  WriteTimeout c = DefaultWriteTimeout /\
  transactionIDs c = CfgTransactionIDs cfg0 /\
  Config' c = zeroConfig /\ Err c = None /\ advertise c = None.
Proof.
  unfold NewClient.
  destruct (InterfaceByName _) as [iface|e]; [|discriminate].
  destruct (CfgLocalAddr cfg0) as [laddr|];
    [|destruct (GetLinkLocalAddr _) as [ll|e]; [|discriminate]].
  all: destruct (CfgDUID cfg0) as [b|];
         [destruct (DuidFromBytes b) as [d|e] eqn:Hd; [|discriminate]|].
  all: destruct (CfgConn cfg0) as [k|];
         [|destruct (ListenUDP _ _) as [k|e]; [|discriminate]].
  all: intros H; inversion H; subst; cbn.
  all: repeat split; try reflexivity; try (intros conn Hc; congruence).
  all: try (exists iface; split; reflexivity).
  all: exact Hd.
Qed.

Lemma NewClient_result_witness :
  NewClient (host := TestHost.host) TestHost.config = inl TestHost.client /\
  Conn TestHost.client = Fixture.conn [Fixture.dgram [x02; x00; x11; x11]] /\
  net.Port (raddr TestHost.client) = 547 /\
  hardwareAddr TestHost.client = [x02; x00; x00; x00; x00; x01] /\
  LinkLayerAddr (duid TestHost.client) = [x02; x00; x00; x00; x00; x01] /\
  transactionIDs TestHost.client = [Fixture.xid1; Fixture.xid2].
Proof.
  assert (NewClient (host := TestHost.host) TestHost.config = inl TestHost.client)
    as Hn by (vm_compute; reflexivity).
  destruct (@NewClient_result TestHost.host TestHost.config TestHost.client Hn)
    as (_ & Hconn & Hr & (iface & _ & Hhw) & Hd & _ & _ & Hq & _).
  split; [exact Hn|].
  split; [apply Hconn; reflexivity|].
  split; [rewrite Hr; reflexivity|].
  split; [exact Hhw|].
  cbn [TestHost.config CfgDUID] in Hd. rewrite Hd. cbn [LinkLayerAddr].
  split; [exact Hhw | exact Hq].
Defined.

(** X18.  The first Solicit of a new client, built by the library and
    written without failure: it goes out on the connection of the
    configuration, to ff02::1:2 port 547 when the configuration names no
    remote address; it carries the first identifier of the configuration,
    or the one of the library when the configuration has none; and its
    last option is the IA_PD with the IA id bytes 0, 0, 0, 1. *)
Theorem NewClient_first_Solicit {host : Host} {codec : Codec}
    (cfg0 : ClientConfig) (c : Client) (conn : net.PacketConn) (built : Message) :
  NewClient cfg0 = inl c ->
  CfgConn cfg0 = Some conn ->
  CfgRemoteAddr cfg0 = None ->
  writeSucceeds conn ->
  NewSolicit (hardwareAddr c) [WithClientID (duid c)] = inl built ->
  exists sent,
    sentMessage (fst (solicit c None)) = Some sent /\
    TransactionID_ sent = hd (TransactionID_ built) (CfgTransactionIDs cfg0) /\
    Options sent = Options built ++ [IAPDOption solicitIAPD] /\
    net.outbound (Conn (snd (solicit c None)))
    = net.outbound conn ++
      [(ToBytes sent, {| net.UDPAddr_IP := AllDHCPRelayAgentsAndServers;
                         net.Port := DefaultServerPort;
                         net.Zone := EmptyString |})].
Proof.
  intros Hn Hc Hr Hw Hb.
  assert (Conn c = conn /\ transactionIDs c = CfgTransactionIDs cfg0 /\
          raddr c = {| net.UDPAddr_IP := AllDHCPRelayAgentsAndServers;
                       net.Port := DefaultServerPort;
                       net.Zone := EmptyString |}) as (HC & HQ & HR).
  { unfold NewClient in Hn. rewrite Hc, Hr in Hn.
    destruct (InterfaceByName _) as [iface|e]; [|discriminate].
    destruct (CfgLocalAddr cfg0) as [laddr|];
      [|destruct (GetLinkLocalAddr _) as [ll|e]; [|discriminate]].
    all: destruct (match CfgDUID cfg0 with Some b => DuidFromBytes b | None => _ end)
           as [d|e]; [|discriminate].
    all: inversion Hn; subst; cbn; auto. }
  rewrite (solicit_exchange c None Hb).
  exists (stamped (transactionIDs c) (AddOption built (IAPDOption solicitIAPD))).
  split; [apply exchange_sent|].
  rewrite stamped_TransactionID, stamped_Options, HQ.
  split; [reflexivity|]. split; [reflexivity|].
  rewrite <- HC in Hw. rewrite (exchange_outbound c _ Hw), HC, HR, HQ. reflexivity.
Qed.

Lemma NewClient_first_Solicit_witness :
  exists sent,
    sentMessage (fst (solicit (codec := Fixture.codec) TestHost.client None))
    = Some sent /\
    TransactionID_ sent = Fixture.xid1 /\
    net.outbound (Conn (snd (solicit (codec := Fixture.codec) TestHost.client None)))
    = [(ToBytes (Codec := Fixture.codec) sent, Fixture.server)].
Proof.
  destruct (@NewClient_first_Solicit TestHost.host Fixture.codec TestHost.config
              TestHost.client
              (Fixture.conn [Fixture.dgram [x02; x00; x11; x11]])
              {| MessageType_ := MessageTypeSolicit;
                 TransactionID_ := Fixture.generated;
                 Options := [ClientIDOption (duid TestHost.client)] |})
    as (sent & Hs & Hx & _ & Hout).
  - vm_compute. reflexivity.
  - reflexivity.
  - reflexivity.
  - reflexivity.
  - reflexivity.
  - exists sent. split; [exact Hs|]. split; [exact Hx | exact Hout].
Defined.

(** ** Invariants of [ObtainOrRenew] and [Release] *)

Section Invariants.

Context {codec : Codec}.

Lemma solicit_reply_type (c c' : Client) (built sent adv : Message) :
  NewSolicit (hardwareAddr c) [WithClientID (duid c)] = inl built ->
  MessageType_ built = MessageTypeSolicit ->
  solicit c None = (inl (sent, adv), c') ->
  MessageType_ adv = MessageTypeAdvertise.
Proof.
  intros Hb Ht Hs. rewrite (solicit_exchange c None Hb) in Hs.
  destruct (exchange_reply_matching Hs) as (Hsent & payload & _ & _ & Hty).
  unfold inferExpectedType, Type_ in Hty.
  rewrite Hsent, stamped_MessageType in Hty. cbn [AddOption MessageType_] in Hty.
  rewrite Ht in Hty. cbn in Hty.
  destruct Hty as [Hty|Hty]; [discriminate | exact Hty].
Qed.









End Invariants.

(** X19.  As long as the library builds Solicit messages of type Solicit,
    [ObtainOrRenew] keeps this true of the client: the message it retains,
    if any, is an Advertise. *)
Theorem ObtainOrRenew_retained_is_Advertise {codec : Codec} (c : Client) :
  (forall built : Message,
     NewSolicit (hardwareAddr c) [WithClientID (duid c)] = inl built ->
     MessageType_ built = MessageTypeSolicit) ->
  (forall a : Message, advertise c = Some a -> MessageType_ a = MessageTypeAdvertise) ->
  forall a : Message,
    advertise (snd (ObtainOrRenew c)) = Some a ->
    MessageType_ a = MessageTypeAdvertise.
Proof.
  intros Hlib Hinv a.
  destruct (solicit c None) as [[[sol adv]|[sent e]] c1] eqn:Hs.
  - assert (MessageType_ adv = MessageTypeAdvertise) as Hadv.
    { destruct (NewSolicit (hardwareAddr c) [WithClientID (duid c)])
        as [built|e] eqn:Hb.
      - eapply solicit_reply_type; [exact Hb | apply Hlib; reflexivity | exact Hs].
      - unfold solicit in Hs. rewrite Hb in Hs. discriminate. }
    destruct (request c1 adv) as [[[req reply]|[sent e]] c2] eqn:Hr.
    + rewrite (ObtainOrRenew_succeeded _ Hs Hr). cbn. intros H; inversion H; subst.
      exact Hadv.
    + rewrite (ObtainOrRenew_request_failed _ Hs Hr). cbn. intros H; inversion H; subst.
      exact Hadv.
  - rewrite (ObtainOrRenew_solicit_failed _ Hs). cbn [snd set_err advertise].
    pose proof (solicit_onlyNetwork c None) as Hf. rewrite Hs in Hf. cbn [snd] in Hf.
    rewrite (onlyNetwork_advertise Hf). apply Hinv.
Qed.

(** A Reply of the Solicit's transaction is passed over; the Advertise
    behind it is the one retained. *)
Lemma ObtainOrRenew_retained_is_Advertise_witness :
  let c := Fixture.client [Fixture.dgram [x07; x00; x11; x11];
                           Fixture.dgram [x02; x00; x11; x11]]
             [Fixture.xid1; Fixture.xid2] 0 in
  let adv := {| MessageType_ := MessageTypeAdvertise; TransactionID_ := Fixture.xid1;
                Options := [] |} in
  advertise (snd (ObtainOrRenew (codec := Fixture.codec) c)) = Some adv /\
  MessageType_ adv = MessageTypeAdvertise.
Proof.
  intros c adv.
  assert (advertise (snd (ObtainOrRenew (codec := Fixture.codec) c)) = Some adv)
    as Ha by (vm_compute; reflexivity).
  split; [exact Ha|].
  apply (@ObtainOrRenew_retained_is_Advertise Fixture.codec c).
  - intros built Hb. vm_compute in Hb. inversion Hb. reflexivity.
  - intros a Hnone. discriminate.
  - exact Ha.
Defined.


(** X21.  The type of a message that [sendReceive] returns: the expected
    type when one is given, whatever the type of the packet; with none
    given, Advertise for a Solicit, Reply for a Request, RelayReply for a
    RelayForward and LeaseQueryReply for a LeaseQuery. *)
Theorem sendReceive_reply_type {codec : Codec} (c c' : Client) (packet : Message)
    (expectedType : MessageType) (reply : Message) :
  sendReceive c (Some packet) expectedType = (inl reply, c') ->
  (expectedType <> MessageTypeNone -> MessageType_ reply = expectedType) /\
  (expectedType = MessageTypeNone ->
   (Type_ packet = MessageTypeSolicit -> MessageType_ reply = MessageTypeAdvertise) /\
   (Type_ packet = MessageTypeRequest -> MessageType_ reply = MessageTypeReply) /\
   (Type_ packet = MessageTypeRelayForward ->
    MessageType_ reply = MessageTypeRelayReply) /\
   (Type_ packet = MessageTypeLeaseQuery ->
    MessageType_ reply = MessageTypeLeaseQueryReply)).
Proof.
  intros H.
  destruct (sendReceive_inl _ _ _ H) as (sent & rest & Hs & _ & Hloop & _).
  inversion Hs; subst sent.
  destruct (receiveLoop_inl _ _ _ Hloop) as (pre & payload & from & _ & _ & Hm).
  destruct Hm as (_ & _ & Hty).
  split.
  - intros Hn. unfold inferExpectedType in Hty.
    apply N.eqb_neq in Hn. rewrite Hn in Hty. apply N.eqb_neq in Hn.
    destruct Hty as [Hty|Hty]; [contradiction | exact Hty].
  - intros ->. unfold inferExpectedType in Hty. cbn [N.eqb MessageTypeNone] in Hty.
    repeat split; intros Ht; rewrite Ht in Hty; cbn in Hty;
      (destruct Hty as [Hty|Hty]; [discriminate | exact Hty]).
Qed.

(** A Solicit for which a Reply is asked: the Advertise of its transaction
    is passed over. *)
Lemma sendReceive_reply_type_witness :
  let c := Fixture.client [Fixture.dgram [x02; x00; x11; x11];
                           Fixture.dgram [x07; x00; x11; x11]] [] 0 in
  let solicit1 := {| MessageType_ := MessageTypeSolicit;
                     TransactionID_ := Fixture.xid1; Options := [] |} in
  let reply1 := {| MessageType_ := MessageTypeReply;
                   TransactionID_ := Fixture.xid1; Options := [] |} in
  fst (sendReceive (codec := Fixture.codec) c (Some solicit1) MessageTypeReply)
  = inl reply1 /\
  MessageType_ reply1 = MessageTypeReply.
Proof.
  intros c solicit1 reply1. split; [vm_compute; reflexivity|].
  assert (sendReceive (codec := Fixture.codec) c (Some solicit1) MessageTypeReply
          = (inl reply1,
             snd (sendReceive (codec := Fixture.codec) c (Some solicit1)
                    MessageTypeReply))) as Hrun by (vm_compute; reflexivity).
  apply (proj1 (@sendReceive_reply_type Fixture.codec c _ solicit1 MessageTypeReply
                  reply1 Hrun)).
  intros H. vm_compute in H. discriminate.
Defined.
